(** * TwilioAudioInterface: the audio relay between a Twilio media stream
      and the conversational engine (twilio_audio_interface.py).

    The definitions come first:
    - [Py]: the fragment of Python's dynamic values the adapter touches
      (JSON values as [json.loads] produces them, exceptions, truthiness,
      subscripting, [len]);
    - [Base64] and [Json]: the two library codecs the adapter calls
      ([base64.b64encode], [base64.b64decode], [json.dumps]);
    - [Adapter]: the class itself, method by method;
    - [Loop]: the event loop the adapter schedules its coroutines on.

    The proofs follow: the round trip of the codec, the invariants of the
    loop, the behaviour of the two outbound coroutines, the scenarios and
    properties of the specification, and further properties of the
    payload, of the handler and the coroutines, and of the order in which
    the loop sends. *)

From Stdlib Require Import List String Ascii NArith ZArith Bool Lia.
From Stdlib Require Import Strings.Byte Numbers.DecimalString.
Import ListNotations.
Open Scope string_scope.
Set Warnings "-register-all".

(* ================================================================== *)
(** ** Python values *)

Module Py.

(** Exception classes that occur in the adapter or in the library calls it
    makes. All of them derive from [Exception]; [BinasciiError] derives
    from [ValueError]. [OSError] stands for the faults of a transport that
    are neither a disconnect nor a runtime error. Signals that derive from
    [BaseException] only (task cancellation, interpreter exit) are not
    failures of an operation and are outside the model. *)
Inductive exn :=
| WebSocketDisconnect
| RuntimeError
| KeyError
| TypeError
| AttributeError
| ValueError
| BinasciiError
| OSError.

Definition exn_eqb (a b : exn) : bool :=
  match a, b with
  | WebSocketDisconnect, WebSocketDisconnect
  | RuntimeError, RuntimeError
  | KeyError, KeyError
  | TypeError, TypeError
  | AttributeError, AttributeError
  | ValueError, ValueError
  | BinasciiError, BinasciiError
  | OSError, OSError => true
  | _, _ => false
  end.

(** [isinstance e c]: an [except c] clause catches [e]. *)
Definition isinstance (e c : exn) : bool :=
  exn_eqb e c ||
  match e, c with
  | BinasciiError, ValueError => true
  | _, _ => false
  end.

(** The result of evaluating an expression: a value or a raised exception. *)
Inductive result (A : Type) :=
| Ok (a : A)
| Raise (e : exn).
Arguments Ok {A} a.
Arguments Raise {A} e.

Definition bind {A B} (r : result A) (k : A -> result B) : result B :=
  match r with
  | Ok a => k a
  | Raise e => Raise e
  end.

Notation "x <- r ;; k" := (bind r (fun x => k))
  (at level 61, r at next level, right associativity).

(** A value as [json.loads] builds it. A [dict] keeps its insertion order,
    which [json.dumps] follows, so it is an association list; a lookup
    takes the first binding of the key. [None] is [JNull]. Numbers are the
    integers; floating-point numbers are outside the model. A [str] is the
    sequence of its code points, of which [ascii] holds those below 256. *)
Inductive json :=
| JNull
| JBool (b : bool)
| JInt (z : Z)
| JStr (s : string)
| JArr (l : list json)
| JObj (kv : list (string * json)).

(** [bool(v)]: what [if v:] tests. *)
Definition truthy (v : json) : bool :=
  match v with
  | JNull => false
  | JBool b => b
  | JInt z => negb (Z.eqb z 0)
  | JStr s => negb (String.eqb s EmptyString)
  | JArr l => match l with [] => false | _ => true end
  | JObj kv => match kv with [] => false | _ => true end
  end.

Fixpoint lookup (k : string) (kv : list (string * json)) : option json :=
  match kv with
  | [] => None
  | (k', v) :: rest => if String.eqb k k' then Some v else lookup k rest
  end.

(** [d.get(k)]: [None] for an absent key; only a [dict] has the method. *)
Definition get (d : json) (k : string) : result json :=
  match d with
  | JObj kv => match lookup k kv with
               | Some v => Ok v
               | None => Ok JNull
               end
  | _ => Raise AttributeError
  end.

(** [d[k]] for a string [k]: [KeyError] for an absent key of a [dict];
    a [str] or a [list] takes integer indices only, and the other values
    are not subscriptable: [TypeError]. *)
Definition getitem (d : json) (k : string) : result json :=
  match d with
  | JObj kv => match lookup k kv with
               | Some v => Ok v
               | None => Raise KeyError
               end
  | _ => Raise TypeError
  end.

(** [len(v)]. *)
Definition len (v : json) : result nat :=
  match v with
  | JStr s => Ok (String.length s)
  | JArr l => Ok (List.length l)
  | JObj kv => Ok (List.length kv)
  | _ => Raise TypeError
  end.

(** [v == s] for a string literal [s]. *)
Definition eq_str (v : json) (s : string) : bool :=
  match v with
  | JStr s' => String.eqb s' s
  | _ => false
  end.

End Py.
Export Py.

(** [bytes]. *)
Definition bytes := list byte.

(* ================================================================== *)
(** ** base64 *)

Module Base64.

Definition alphabet : string :=
  "ABCDEFGHIJKLMNOPQRSTUVWXYZabcdefghijklmnopqrstuvwxyz0123456789+/".

Definition BASE64_PAD : ascii := "="%char.

(** [table_b2a_base64]: the character of a 6-bit value. *)
Definition table_b2a_base64 (n : N) : ascii :=
  match String.get (N.to_nat n) alphabet with
  | Some c => c
  | None => BASE64_PAD
  end.

Fixpoint index_of (c : ascii) (s : string) (i : N) : option N :=
  match s with
  | EmptyString => None
  | String c' rest => if Ascii.eqb c c' then Some i else index_of c rest (i + 1)
  end.

(** [table_a2b_base64]: the 6-bit value of a character of the alphabet,
    nothing for any other character. *)
Definition table_a2b_base64 (c : ascii) : option N := index_of c alphabet 0.

(** An [unsigned char] holding the low eight bits of [n]. *)
Definition byte_of_N (n : N) : byte :=
  match Byte.of_N (n mod 256) with
  | Some b => b
  | None => x00
  end.

(** [binascii.b2a_base64(s, newline=False)] as RFC 4648 section 4 lays it
    out: three bytes give four characters; a last group of one or two
    bytes is padded with [=]. *)
Fixpoint b2a_base64 (bin_data : bytes) : string :=
  match bin_data with
  | [] => EmptyString
  | [a] =>
      let a := Byte.to_N a in
      String (table_b2a_base64 (N.shiftr a 2))
     (String (table_b2a_base64 (N.shiftl (N.land a 3) 4))
     (String BASE64_PAD (String BASE64_PAD EmptyString)))
  | [a; b] =>
      let a := Byte.to_N a in
      let b := Byte.to_N b in
      String (table_b2a_base64 (N.shiftr a 2))
     (String (table_b2a_base64 (N.lor (N.shiftl (N.land a 3) 4) (N.shiftr b 4)))
     (String (table_b2a_base64 (N.shiftl (N.land b 15) 2))
     (String BASE64_PAD EmptyString)))
  | a :: b :: c :: rest =>
      let a := Byte.to_N a in
      let b := Byte.to_N b in
      let c := Byte.to_N c in
      String (table_b2a_base64 (N.shiftr a 2))
     (String (table_b2a_base64 (N.lor (N.shiftl (N.land a 3) 4) (N.shiftr b 4)))
     (String (table_b2a_base64 (N.lor (N.shiftl (N.land b 15) 2) (N.shiftr c 6)))
     (String (table_b2a_base64 (N.land c 63))
     (b2a_base64 rest))))
  end.

(** [base64.b64encode(s).decode("utf-8")] on [bytes]: no failure path. *)
Definition b64encode (s : bytes) : string := b2a_base64 s.

(** The loop of [binascii.a2b_base64] in its default, non-strict mode.
    [quad_pos] counts the characters of the current group of four,
    [leftchar] holds the bits not yet written, [pads] the [=] seen since
    the last character of the alphabet, [bin_data] is the output so far.
    A character outside the alphabet is skipped. A [=] that completes a
    group holding at least two characters ends the decoding, whatever
    follows it. Input that ends inside a group is an error. *)
Fixpoint a2b_loop (ascii_data : string) (quad_pos leftchar pads : N)
    (bin_data : bytes) : result bytes :=
  match ascii_data with
  | EmptyString =>
      if N.eqb quad_pos 0 then Ok bin_data else Raise BinasciiError
  | String this_ch rest =>
      if Ascii.eqb this_ch BASE64_PAD then
        if N.leb 2 quad_pos then
          if N.leb 4 (quad_pos + (pads + 1)) then Ok bin_data
          else a2b_loop rest quad_pos leftchar (pads + 1) bin_data
        else a2b_loop rest quad_pos leftchar pads bin_data
      else
        match table_a2b_base64 this_ch with
        | None => a2b_loop rest quad_pos leftchar pads bin_data
        | Some this_ch =>
            if N.eqb quad_pos 0 then
              a2b_loop rest 1 this_ch 0 bin_data
            else if N.eqb quad_pos 1 then
              a2b_loop rest 2 (N.land this_ch 15) 0
                (bin_data ++
                 [byte_of_N (N.lor (N.shiftl leftchar 2) (N.shiftr this_ch 4))])%list
            else if N.eqb quad_pos 2 then
              a2b_loop rest 3 (N.land this_ch 3) 0
                (bin_data ++
                 [byte_of_N (N.lor (N.shiftl leftchar 4) (N.shiftr this_ch 2))])%list
            else
              a2b_loop rest 0 0 0
                (bin_data ++
                 [byte_of_N (N.lor (N.shiftl leftchar 6) this_ch)])%list
        end
  end.

Definition a2b_base64 (data : string) : result bytes :=
  a2b_loop data 0 0 0 [].

(** [s.encode("ascii")] succeeds when every code point is below 128. *)
Fixpoint is_ascii (s : string) : bool :=
  match s with
  | EmptyString => true
  | String c rest => N.ltb (N_of_ascii c) 128 && is_ascii rest
  end.

(** [base64.b64decode(s)] with its default [validate=False]: a [str] is
    first encoded as ASCII ([ValueError] when it cannot be); a value that
    is neither a [str] nor bytes-like is a [TypeError]. *)
Definition b64decode (s : json) : result bytes :=
  match s with
  | JStr s => if is_ascii s then a2b_base64 s else Raise ValueError
  | _ => Raise TypeError
  end.

End Base64.
Export Base64.

(* ================================================================== *)
(** ** json.dumps *)

Module Json.

Definition hex_digit (n : N) : ascii :=
  match String.get (N.to_nat n) "0123456789abcdef" with
  | Some c => c
  | None => "0"%char
  end.

(** One character of a string literal, as [json.dumps] writes it with its
    default [ensure_ascii=True]: the printable ASCII characters stand for
    themselves, except the quote and the backslash; the others are escaped,
    by the short form where JSON has one. *)
Definition dquote : ascii := ascii_of_N 34.
Definition backslash : ascii := ascii_of_N 92.

Definition escape_char (c : ascii) : string :=
  let n := N_of_ascii c in
  if N.eqb n 34 then String backslash (String dquote EmptyString)
  else if N.eqb n 92 then String backslash (String backslash EmptyString)
  else if N.eqb n 10 then String backslash "n"
  else if N.eqb n 13 then String backslash "r"
  else if N.eqb n 9 then String backslash "t"
  else if N.eqb n 8 then String backslash "b"
  else if N.eqb n 12 then String backslash "f"
  else if N.leb 32 n && N.leb n 126 then String c EmptyString
  else String backslash "u00" ++
       String (hex_digit (n / 16)) (String (hex_digit (n mod 16)) EmptyString).

Fixpoint escape (s : string) : string :=
  match s with
  | EmptyString => EmptyString
  | String c rest => escape_char c ++ escape rest
  end.

Definition quote (s : string) : string :=
  String dquote (escape s ++ String dquote EmptyString).

(** [json.dumps(v, separators=(item_sep, key_sep))]. *)
Fixpoint dumps_with (item_sep key_sep : string) (v : json) : string :=
  match v with
  | JNull => "null"
  | JBool true => "true"
  | JBool false => "false"
  | JInt z => NilZero.string_of_int (Z.to_int z)
  | JStr s => quote s
  | JArr l =>
      "[" ++
      (fix items (l : list json) : string :=
         match l with
         | [] => EmptyString
         | x :: rest =>
             match rest with
             | [] => dumps_with item_sep key_sep x
             | _ => dumps_with item_sep key_sep x ++ item_sep ++ items rest
             end
         end) l ++ "]"
  | JObj kv =>
      "{" ++
      (fix items (kv : list (string * json)) : string :=
         match kv with
         | [] => EmptyString
         | (k, x) :: rest =>
             match rest with
             | [] => quote k ++ key_sep ++ dumps_with item_sep key_sep x
             | _ => quote k ++ key_sep ++ dumps_with item_sep key_sep x
                    ++ item_sep ++ items rest
             end
         end) kv ++ "}"
  end.

(** [json.dumps(v)]: the default separators are [", "] and [": "]. *)
Definition dumps (v : json) : string := dumps_with ", " ": " v.

(** [json.dumps(v, separators=(",", ":"))], the text without whitespace. *)
Definition dumps_compact (v : json) : string := dumps_with "," ":" v.

End Json.

(* ================================================================== *)
(** ** The adapter *)

Module Adapter.

(** The consumer of inbound audio is the engine's. The model knows it by
    its identity and by what a call of it with a frame comes to: the call
    returns ([None]) or raises. *)
Record callback := {
  cb_id : nat;
  raises : bytes -> option exn
}.

Inductive WebSocketState := CONNECTING | CONNECTED | DISCONNECTED | RESPONSE.

(** What awaiting [websocket.send_text] comes to: the frame is sent, an
    exception is raised, or the send never completes. *)
Inductive send_result :=
| Sent
| Fails (e : exn)
| Pending.

(** The transport as the adapter uses it. *)
Record WebSocket := {
  application_state : WebSocketState;
  send_text : string -> send_result
}.

Inductive level := DEBUG | INFO | WARNING | ERROR.

(** The messages of the module's logger. *)
Inductive message :=
| PreparingToSend (stream_sid : json)
| PayloadSize (n : nat)
| Base64Size (n : nat)
| AudioSent
| NotConnected
| ConnectionClosed
| RuntimeErrorRaised
| UnexpectedError (e : exn)
| NoStreamSid.

(** The lines written with [print]. *)
Inductive printed :=
| StartCalled
| MediaReceived (n : nat)
| AudioFrameSize (n : nat).

(** The effects of the adapter, in the order they happen. [SendText] is a
    call of [websocket.send_text] together with what came of it. *)
Inductive event :=
| SendText (text : string) (r : send_result)
| Invoke (cb : callback) (audio : bytes)
| Log (l : level) (m : message)
| Stdout (p : printed).

(** How a coroutine ends: it returns, an exception leaves it, or it stays
    suspended in an await that never completes. *)
Inductive outcome :=
| Returned
| Raised (e : exn)
| Suspended.

(** The attributes of the instance that change; [self.websocket] is passed
    to the coroutines that use it and [self.loop] is modelled in [Loop]. *)
Record TwilioAudioInterface := {
  input_callback : option callback;
  stream_sid : json
}.

Definition __init__ : TwilioAudioInterface :=
  {| input_callback := None; stream_sid := JNull |}.

Definition start (self : TwilioAudioInterface) (cb : callback)
  : TwilioAudioInterface * list event :=
  ({| input_callback := Some cb; stream_sid := stream_sid self |},
   [Stdout StartCalled]).

Definition stop (self : TwilioAudioInterface) : TwilioAudioInterface :=
  {| input_callback := None; stream_sid := JNull |}.

(** The [await self.websocket.send_text(text)] of both coroutines, followed
    by [after] when the send returns. *)
Definition await_send_text (ws : WebSocket) (text : string)
    (after : list event) : list event * outcome :=
  match send_text ws text with
  | Sent => (SendText text Sent :: after, Returned)
  | Fails e => ([SendText text (Fails e)], Raised e)
  | Pending => ([SendText text Pending], Suspended)
  end.

(** [self.websocket.application_state == WebSocketState.CONNECTED]. *)
Definition connected (ws : WebSocket) : bool :=
  match application_state ws with
  | CONNECTED => true
  | _ => false
  end.

(** The body of the [try] of [send_audio_to_twilio]. *)
Definition send_audio_try (self : TwilioAudioInterface) (ws : WebSocket)
    (audio : bytes) : list event * outcome :=
  let audio_payload := b64encode audio in
  let audio_delta :=
    JObj [("event", JStr "media");
          ("streamSid", stream_sid self);
          ("media", JObj [("payload", JStr audio_payload)])] in
  let '(tr, o) :=
    if connected ws then
      await_send_text ws (Json.dumps audio_delta) [Log INFO AudioSent]
    else ([Log WARNING NotConnected], Returned) in
  ([Log INFO (PreparingToSend (stream_sid self));
    Log DEBUG (PayloadSize (List.length audio));
    Log DEBUG (Base64Size (String.length audio_payload))] ++ tr, o)%list.

(** The three [except] clauses of [send_audio_to_twilio], tried in order;
    the last one, [except Exception], takes whatever is left. *)
Definition send_audio_except (e : exn) : list event * outcome :=
  if isinstance e WebSocketDisconnect then ([Log ERROR ConnectionClosed], Returned)
  else if isinstance e RuntimeError then ([Log ERROR RuntimeErrorRaised], Returned)
  else ([Log ERROR (UnexpectedError e)], Returned).

Definition send_audio_to_twilio (self : TwilioAudioInterface) (ws : WebSocket)
    (audio : bytes) : list event * outcome :=
  if truthy (stream_sid self) then
    match send_audio_try self ws audio with
    | (tr, Raised e) =>
        let '(tr', o) := send_audio_except e in ((tr ++ tr')%list, o)
    | r => r
    end
  else ([Log WARNING NoStreamSid], Returned).

Definition send_clear_message_to_twilio (self : TwilioAudioInterface)
    (ws : WebSocket) : list event * outcome :=
  if truthy (stream_sid self) then
    let clear_message :=
      JObj [("event", JStr "clear"); ("streamSid", stream_sid self)] in
    let r :=
      if connected ws then await_send_text ws (Json.dumps clear_message) []
      else ([], Returned) in
    match r with
    | (tr, Raised e) =>
        if isinstance e WebSocketDisconnect || isinstance e RuntimeError
        then (tr, Returned)
        else (tr, Raised e)
    | r => r
    end
  else ([], Returned).

(** [data["media"]["payload"]] and the like. *)
Definition getitem2 (data : json) (k1 k2 : string) : result json :=
  d <- getitem data k1 ;; getitem d k2.

(** How [self.input_callback(audio_data)] ends: the call is not guarded,
    what the consumer raises leaves the handler. *)
Definition call_outcome (cb : callback) (audio : bytes) : outcome :=
  match raises cb audio with
  | Some e => Raised e
  | None => Returned
  end.

(** The media branch of [handle_twilio_message], entered with the
    registered consumer [cb]. The payload is looked up twice in the source,
    for the [print] and for the decoding. *)
Definition handle_media (cb : callback) (data : json) : list event * outcome :=
  match (p <- getitem2 data "media" "payload" ;; len p) with
  | Raise e => ([], Raised e)
  | Ok n =>
      match (p <- getitem2 data "media" "payload" ;; b64decode p) with
      | Raise e => ([Stdout (MediaReceived n)], Raised e)
      | Ok audio_data =>
          ([Stdout (MediaReceived n);
            Stdout (AudioFrameSize (List.length audio_data));
            Invoke cb audio_data], call_outcome cb audio_data)
      end
  end.

Definition handle_twilio_message (self : TwilioAudioInterface) (data : json)
  : TwilioAudioInterface * list event * outcome :=
  match get data "event" with
  | Raise e => (self, [], Raised e)
  | Ok event_type =>
      if eq_str event_type "start" then
        match getitem2 data "start" "streamSid" with
        | Ok sid =>
            ({| input_callback := input_callback self; stream_sid := sid |},
             [], Returned)
        | Raise e => (self, [], Raised e)
        end
      else
        match eq_str event_type "media", input_callback self with
        | true, Some cb =>
            let '(tr, o) := handle_media cb data in (self, tr, o)
        | _, _ => (self, [], Returned)
        end
  end.

End Adapter.
Export Adapter.

(* ================================================================== *)
(** ** The event loop *)

Module Loop.

(** A coroutine that [output] or [interrupt] has handed to
    [asyncio.run_coroutine_threadsafe]. *)
Inductive task :=
| SendAudio (audio : bytes)
| SendClear.

(** The adapter together with its loop. [ready] holds the scheduled
    coroutines in the order they were submitted, [trace] the effects so
    far. [futures] holds how each coroutine that has run ended: this is
    what the future that [run_coroutine_threadsafe] returned holds, and
    [output] and [interrupt] drop that future. [escaped] holds the
    exceptions [handle_twilio_message] raised to the code awaiting it. *)
Record world := {
  adapter : TwilioAudioInterface;
  ready : list task;
  trace : list event;
  futures : list outcome;
  escaped : list exn
}.

Definition init : world :=
  {| adapter := __init__; ready := []; trace := []; futures := [];
     escaped := [] |}.

(** What can happen next: the engine calls one of the four methods, from
    its own thread; the receive loop awaits [handle_twilio_message] on an
    envelope; the loop runs the oldest scheduled coroutine, against the
    transport as it is at that moment. A coroutine is one step: its only
    await is the send, after which it reads the adapter no more. *)
Inductive action :=
| CallStart (cb : callback)
| CallStop
| CallOutput (audio : bytes)
| CallInterrupt
| Receive (data : json)
| RunTask (ws : WebSocket).

Definition run_task (self : TwilioAudioInterface) (ws : WebSocket) (t : task)
  : list event * outcome :=
  match t with
  | SendAudio audio => send_audio_to_twilio self ws audio
  | SendClear => send_clear_message_to_twilio self ws
  end.

(** [output] and [interrupt] only submit the coroutine to the loop. *)
Definition output (w : world) (audio : bytes) : world :=
  {| adapter := adapter w; ready := ready w ++ [SendAudio audio];
     trace := trace w; futures := futures w; escaped := escaped w |}.

Definition interrupt (w : world) : world :=
  {| adapter := adapter w; ready := ready w ++ [SendClear];
     trace := trace w; futures := futures w; escaped := escaped w |}.

Definition step (w : world) (a : action) : world :=
  match a with
  | CallStart cb =>
      let '(self, tr) := start (adapter w) cb in
      {| adapter := self; ready := ready w; trace := trace w ++ tr;
         futures := futures w; escaped := escaped w |}
  | CallStop =>
      {| adapter := stop (adapter w); ready := ready w; trace := trace w;
         futures := futures w; escaped := escaped w |}
  | CallOutput audio => output w audio
  | CallInterrupt => interrupt w
  | Receive data =>
      let r := handle_twilio_message (adapter w) data in
      {| adapter := fst (fst r); ready := ready w;
         trace := trace w ++ snd (fst r);
         futures := futures w;
         escaped := match snd r with
                    | Raised e => escaped w ++ [e]
                    | _ => escaped w
                    end |}
  | RunTask ws =>
      match ready w with
      | [] => w
      | t :: rest =>
          let r := run_task (adapter w) ws t in
          {| adapter := adapter w; ready := rest; trace := trace w ++ fst r;
             futures := futures w ++ [snd r]; escaped := escaped w |}
      end
  end.

Definition run (w : world) (acts : list action) : world :=
  fold_left step acts w.

(** The texts [websocket.send_text] was called with. *)
Fixpoint send_attempts (tr : list event) : list string :=
  match tr with
  | [] => []
  | SendText text _ :: rest => text :: send_attempts rest
  | _ :: rest => send_attempts rest
  end.

(** The frames that went out on the wire. *)
Fixpoint wire (tr : list event) : list string :=
  match tr with
  | [] => []
  | SendText text Sent :: rest => text :: wire rest
  | _ :: rest => wire rest
  end.

(** The invocations of a consumer. *)
Fixpoint invocations (tr : list event) : list (callback * bytes) :=
  match tr with
  | [] => []
  | Invoke cb audio :: rest => (cb, audio) :: invocations rest
  | _ :: rest => invocations rest
  end.

(** The calls of the module's logger, whatever their level. *)
Fixpoint logged (tr : list event) : list (level * message) :=
  match tr with
  | [] => []
  | Log l m :: rest => (l, m) :: logged rest
  | _ :: rest => logged rest
  end.

(** [level_leb l1 l2]: the level [l1] is not above [l2]. *)
Definition level_leb (l1 l2 : level) : bool :=
  match l1, l2 with
  | DEBUG, _ => true
  | INFO, DEBUG => false
  | INFO, _ => true
  | WARNING, (DEBUG | INFO) => false
  | WARNING, _ => true
  | ERROR, ERROR => true
  | ERROR, _ => false
  end.

(** The records that come out when the level of the logger is
    [threshold]: the calls at that level and above. *)
Definition emitted (threshold : level) (tr : list event)
  : list (level * message) :=
  filter (fun r => level_leb threshold (fst r)) (logged tr).

(** The records under the [logging.basicConfig(level=logging.INFO)] of the
    module: the calls of [logger.debug] leave none. *)
Definition records (tr : list event) : list (level * message) :=
  emitted INFO tr.

(** The envelope is a [dict] whose ["event"] is the string [kind]. *)
Definition is_event (kind : string) (data : json) : bool :=
  match get data "event" with
  | Ok v => eq_str v kind
  | Raise _ => false
  end.

Definition is_start_envelope (a : action) : bool :=
  match a with
  | Receive data => is_event "start" data
  | _ => false
  end.


Definition not_start_envelope (a : action) : bool := negb (is_start_envelope a).

End Loop.
Export Loop.

(** A consumer that returns on every frame, and one that raises [e]. *)
Definition consumer (n : nat) : callback :=
  {| cb_id := n; raises := fun _ => None |}.

Definition failing_consumer (n : nat) (e : exn) : callback :=
  {| cb_id := n; raises := fun _ => Some e |}.

(** A transport that is connected and sends what it is given. *)
Definition connected_ws : WebSocket :=
  {| application_state := CONNECTED; send_text := fun _ => Sent |}.

Definition start_envelope (sid : string) : json :=
  JObj [("event", JStr "start"); ("start", JObj [("streamSid", JStr sid)])].

Definition media_envelope (payload : string) : json :=
  JObj [("event", JStr "media"); ("media", JObj [("payload", JStr payload)])].

Definition media_frame (sid payload : string) : json :=
  JObj [("event", JStr "media"); ("streamSid", JStr sid);
        ("media", JObj [("payload", JStr payload)])].

Definition clear_frame (sid : string) : json :=
  JObj [("event", JStr "clear"); ("streamSid", JStr sid)].

(** A JSON text written with apostrophes for its double quotes. *)
Fixpoint json_text (s : string) : string :=
  match s with
  | EmptyString => EmptyString
  | String c rest =>
      String (if Ascii.eqb c "'"%char then Json.dquote else c) (json_text rest)
  end.

(** The envelope that the coroutine of [t] hands to [send_text] when the
    stream id is [sid]: [audio_delta], or [clear_message]. *)
Definition envelope_of (sid : json) (t : task) : json :=
  match t with
  | SendAudio audio =>
      JObj [("event", JStr "media"); ("streamSid", sid);
            ("media", JObj [("payload", JStr (b64encode audio))])]
  | SendClear => JObj [("event", JStr "clear"); ("streamSid", sid)]
  end.

(** The call of the engine that schedules [t]. *)
Definition call_of (t : task) : action :=
  match t with
  | SendAudio audio => CallOutput audio
  | SendClear => CallInterrupt
  end.


(** The characters the decoder does not skip: those of the alphabet and
    the padding character. *)
Definition significant (c : ascii) : bool :=
  Ascii.eqb c BASE64_PAD ||
  match table_a2b_base64 c with
  | Some _ => true
  | None => false
  end.

Fixpoint keep (f : ascii -> bool) (s : string) : string :=
  match s with
  | EmptyString => EmptyString
  | String c rest => if f c then String c (keep f rest) else keep f rest
  end.

(** Three times the characters of the current group, less four times the
    bytes written for it. *)
Definition slack (quad_pos : N) : nat :=
  if N.eqb quad_pos 0 then 0
  else if N.eqb quad_pos 1 then 3
  else if N.eqb quad_pos 2 then 2
  else 1.

(** [json.dumps] writes the character of the value [n] as it is. *)
Definition plain_ok (n : N) : bool :=
  String.eqb (Json.escape_char (table_b2a_base64 n))
             (String (table_b2a_base64 n) EmptyString).

(* ================================================================== *)
(** ** Checks by enumeration, for the codec *)

Section Enumeration.

Open Scope N_scope.

(** The numbers below [k], for checks by enumeration. *)
Definition below (k : nat) : list N := map N.of_nat (seq 0 k).

(** The four 6-bit values of a group of three bytes. *)
Definition sextet0 (a : N) := N.shiftr a 2.
Definition sextet1 (a b : N) := N.lor (N.shiftl (N.land a 3) 4) (N.shiftr b 4).
Definition sextet2 (b c : N) := N.lor (N.shiftl (N.land b 15) 2) (N.shiftr c 6).
Definition sextet3 (c : N) := N.land c 63.

(** What the decoder needs of two neighbouring bytes [a] and [b]: the
    values fit in six bits and the bits it reassembles are those of the
    bytes. *)
Definition regroup_ok (a b : N) : bool :=
  (sextet0 a <? 64) && (sextet1 a b <? 64) && (sextet2 a b <? 64)
  && (sextet3 a <? 64)
  && (N.shiftl (N.land a 3) 4 <? 64) && (N.shiftl (N.land a 15) 2 <? 64)
  && (N.lor (N.shiftl (sextet0 a) 2) (N.shiftr (sextet1 a b) 4) =? a)
  && (N.lor (N.shiftl (sextet0 a) 2) (N.shiftr (N.shiftl (N.land a 3) 4) 4) =? a)
  && (N.land (sextet1 a b) 15 =? N.shiftr b 4)
  && (N.lor (N.shiftl (N.shiftr a 4) 4) (N.shiftr (sextet2 a b) 2) =? a)
  && (N.lor (N.shiftl (N.shiftr a 4) 4) (N.shiftr (N.shiftl (N.land a 15) 2) 2) =? a)
  && (N.land (sextet2 a b) 3 =? N.shiftr b 6)
  && (N.lor (N.shiftl (N.shiftr a 6) 6) (sextet3 a) =? a).

(** What the decoder needs of the alphabet at the value [n]. *)
Definition alphabet_ok (n : N) : bool :=
  match table_a2b_base64 (table_b2a_base64 n) with
  | Some m => m =? n
  | None => false
  end
  && negb (Ascii.eqb (table_b2a_base64 n) BASE64_PAD)
  && (N_of_ascii (table_b2a_base64 n) <? 128).

End Enumeration.

(* ================================================================== *)
(** ** The codec: decoding undoes encoding *)

Example b64encode_0102 : b64encode [x01; x02] = "AQI=".
Proof. reflexivity. Qed.

Example b64decode_AQI : b64decode (JStr "AQI=") = Ok [x01; x02].
Proof. reflexivity. Qed.

(** The decoder skips what is not in the alphabet. *)
Example b64decode_lenient : b64decode (JStr "A-Q I=!") = Ok [x01; x02].
Proof. reflexivity. Qed.

Example dumps_escapes :
  Json.dumps (JArr [JInt (-12); JBool true; JNull; JStr (json_text "a'b");
                    JObj []]) =
  json_text "[-12, true, null, 'a\'b', {}]".
Proof. reflexivity. Qed.

Example b64decode_invalid :
  b64decode (JStr "not-valid-base64!") = Raise BinasciiError.
Proof. reflexivity. Qed.


Section Codec.

Open Scope list_scope.
Open Scope N_scope.

Lemma forallb_below (P : N -> bool) (k : nat) :
  forallb P (below k) = true ->
  forall n, n < N.of_nat k -> P n = true.
Proof.
  intros Hall n Hn.
  rewrite forallb_forall in Hall. apply Hall.
  unfold below. apply in_map_iff. exists (N.to_nat n). split.
  - apply N2Nat.id.
  - apply in_seq. lia.
Qed.

Lemma regroup_ok_all (a b : N) : a < 256 -> b < 256 -> regroup_ok a b = true.
Proof.
  intros Ha Hb.
  apply (forallb_below (fun b => regroup_ok a b) 256); [|exact Hb].
  apply (forallb_below (fun a => forallb (fun b => regroup_ok a b) (below 256)) 256);
    [|exact Ha].
  vm_compute. reflexivity.
Qed.

Lemma alphabet_ok_all (n : N) : n < 64 -> alphabet_ok n = true.
Proof.
  apply (forallb_below alphabet_ok 64). vm_compute. reflexivity.
Qed.

Lemma table_a2b_b2a (n : N) :
  n < 64 -> table_a2b_base64 (table_b2a_base64 n) = Some n.
Proof.
  intros Hn. pose proof (alphabet_ok_all n Hn) as H. unfold alphabet_ok in H.
  apply andb_prop in H. destruct H as [H _].
  apply andb_prop in H. destruct H as [H _].
  destruct (table_a2b_base64 (table_b2a_base64 n)); [|discriminate].
  apply N.eqb_eq in H. now subst.
Qed.

Lemma table_b2a_not_pad (n : N) :
  n < 64 -> Ascii.eqb (table_b2a_base64 n) BASE64_PAD = false.
Proof.
  intros Hn. pose proof (alphabet_ok_all n Hn) as H. unfold alphabet_ok in H.
  apply andb_prop in H. destruct H as [H _].
  apply andb_prop in H. destruct H as [_ H].
  now apply negb_true_iff in H.
Qed.

Lemma table_b2a_ascii (n : N) :
  n < 64 -> (N_of_ascii (table_b2a_base64 n) <? 128) = true.
Proof.
  intros Hn. pose proof (alphabet_ok_all n Hn) as H. unfold alphabet_ok in H.
  apply andb_prop in H. now destruct H as [_ H].
Qed.

Lemma to_N_lt (x : byte) : Byte.to_N x < 256.
Proof. pose proof (Byte.to_N_bounded x). lia. Qed.

Lemma byte_of_to_N (x : byte) : byte_of_N (Byte.to_N x) = x.
Proof.
  unfold byte_of_N. rewrite N.mod_small by apply to_N_lt.
  now rewrite Byte.of_to_N.
Qed.

(** One step of the decoder on a character of the alphabet. *)
Lemma a2b_loop_value (v : N) (rest : string) (quad_pos leftchar pads : N)
    (bin_data : bytes) :
  v < 64 ->
  a2b_loop (String (table_b2a_base64 v) rest) quad_pos leftchar pads bin_data =
  if quad_pos =? 0 then a2b_loop rest 1 v 0 bin_data
  else if quad_pos =? 1 then
    a2b_loop rest 2 (N.land v 15) 0
      (bin_data ++ [byte_of_N (N.lor (N.shiftl leftchar 2) (N.shiftr v 4))])
  else if quad_pos =? 2 then
    a2b_loop rest 3 (N.land v 3) 0
      (bin_data ++ [byte_of_N (N.lor (N.shiftl leftchar 4) (N.shiftr v 2))])
  else
    a2b_loop rest 0 0 0
      (bin_data ++ [byte_of_N (N.lor (N.shiftl leftchar 6) v)]).
Proof.
  intros Hv. cbn [a2b_loop].
  rewrite (table_b2a_not_pad v Hv), (table_a2b_b2a v Hv). reflexivity.
Qed.

(** The facts of [regroup_ok] as propositions. *)
Lemma regroup (a b : N) :
  a < 256 -> b < 256 ->
  (sextet0 a < 64 /\ sextet1 a b < 64 /\ sextet2 a b < 64 /\ sextet3 a < 64
   /\ N.shiftl (N.land a 3) 4 < 64 /\ N.shiftl (N.land a 15) 2 < 64)
  /\ N.lor (N.shiftl (sextet0 a) 2) (N.shiftr (sextet1 a b) 4) = a
  /\ N.lor (N.shiftl (sextet0 a) 2) (N.shiftr (N.shiftl (N.land a 3) 4) 4) = a
  /\ N.land (sextet1 a b) 15 = N.shiftr b 4
  /\ N.lor (N.shiftl (N.shiftr a 4) 4) (N.shiftr (sextet2 a b) 2) = a
  /\ N.lor (N.shiftl (N.shiftr a 4) 4) (N.shiftr (N.shiftl (N.land a 15) 2) 2) = a
  /\ N.land (sextet2 a b) 3 = N.shiftr b 6
  /\ N.lor (N.shiftl (N.shiftr a 6) 6) (sextet3 a) = a.
Proof.
  intros Ha Hb. pose proof (regroup_ok_all a b Ha Hb) as H.
  unfold regroup_ok in H.
  repeat (apply andb_prop in H; let H' := fresh in destruct H as [H H']).
  repeat match goal with
         | E : (_ <? _) = true |- _ => apply N.ltb_lt in E
         | E : (_ =? _) = true |- _ => apply N.eqb_eq in E
         end.
  repeat split; assumption.
Qed.

Lemma list_ind3 {A : Type} (P : list A -> Prop) :
  P [] -> (forall a, P [a]) -> (forall a b, P [a; b]) ->
  (forall a b c l, P l -> P (a :: b :: c :: l)) ->
  forall l, P l.
Proof.
  intros H0 H1 H2 H3. fix IH 1.
  intros [|a [|b [|c l]]];
    [exact H0 | apply H1 | apply H2 | apply H3, IH].
Qed.

Ltac decode_value H :=
  rewrite (a2b_loop_value _ _ _ _ _ _ H); cbn [N.eqb Pos.eqb].

(** The decoder, started between two groups, reads back what the encoder
    wrote, whatever [leftchar] and [pads] were left at. *)
Lemma a2b_loop_b2a (bs : bytes) :
  forall leftchar pads out,
    a2b_loop (b2a_base64 bs) 0 leftchar pads out = Ok (out ++ bs).
Proof.
  induction bs as [|a|a b|a b c rest IH] using list_ind3; intros leftchar pads out.
  - cbn. now rewrite app_nil_r.
  - destruct (regroup (Byte.to_N a) (Byte.to_N a) (to_N_lt a) (to_N_lt a))
      as ((B0 & _ & _ & _ & B1 & _) & _ & E & _).
    change (b2a_base64 [a]) with
      (String (table_b2a_base64 (sextet0 (Byte.to_N a)))
      (String (table_b2a_base64 (N.shiftl (N.land (Byte.to_N a) 3) 4))
      (String BASE64_PAD (String BASE64_PAD EmptyString)))).
    decode_value B0. decode_value B1.
    cbn -[N.lor N.land N.shiftl N.shiftr byte_of_N sextet0].
    now rewrite E, byte_of_to_N.
  - destruct (regroup (Byte.to_N a) (Byte.to_N b) (to_N_lt a) (to_N_lt b))
      as ((A0 & A1 & _) & E1 & _ & E2 & _).
    destruct (regroup (Byte.to_N b) (Byte.to_N b) (to_N_lt b) (to_N_lt b))
      as ((_ & _ & _ & _ & _ & B2) & _ & _ & _ & _ & E3 & _).
    change (b2a_base64 [a; b]) with
      (String (table_b2a_base64 (sextet0 (Byte.to_N a)))
      (String (table_b2a_base64 (sextet1 (Byte.to_N a) (Byte.to_N b)))
      (String (table_b2a_base64 (N.shiftl (N.land (Byte.to_N b) 15) 2))
      (String BASE64_PAD EmptyString)))).
    decode_value A0. decode_value A1. decode_value B2.
    cbn -[N.lor N.land N.shiftl N.shiftr byte_of_N sextet0 sextet1].
    rewrite E1, E2, E3, !byte_of_to_N, <- app_assoc. reflexivity.
  - destruct (regroup (Byte.to_N a) (Byte.to_N b) (to_N_lt a) (to_N_lt b))
      as ((A0 & A1 & _) & E1 & _ & E2 & _).
    destruct (regroup (Byte.to_N b) (Byte.to_N c) (to_N_lt b) (to_N_lt c))
      as ((_ & _ & B2 & _) & _ & _ & _ & E3 & _ & E4 & _).
    destruct (regroup (Byte.to_N c) (Byte.to_N c) (to_N_lt c) (to_N_lt c))
      as ((_ & _ & _ & C3 & _) & _ & _ & _ & _ & _ & _ & E5).
    change (b2a_base64 (a :: b :: c :: rest)) with
      (String (table_b2a_base64 (sextet0 (Byte.to_N a)))
      (String (table_b2a_base64 (sextet1 (Byte.to_N a) (Byte.to_N b)))
      (String (table_b2a_base64 (sextet2 (Byte.to_N b) (Byte.to_N c)))
      (String (table_b2a_base64 (sextet3 (Byte.to_N c)))
      (b2a_base64 rest))))).
    decode_value A0. decode_value A1. decode_value B2. decode_value C3.
    cbn -[N.lor N.land N.shiftl N.shiftr byte_of_N sextet0 sextet1 sextet2
          sextet3 a2b_loop b2a_base64].
    rewrite E1, E2, E3, E4, E5, !byte_of_to_N, IH, <- !app_assoc. reflexivity.
Qed.

(** The encoder writes ASCII characters only. *)
Lemma b2a_base64_is_ascii (bs : bytes) : is_ascii (b2a_base64 bs) = true.
Proof.
  induction bs as [|a|a b|a b c rest IH] using list_ind3.
  - reflexivity.
  - destruct (regroup (Byte.to_N a) (Byte.to_N a) (to_N_lt a) (to_N_lt a))
      as ((B0 & _ & _ & _ & B1 & _) & _).
    change (b2a_base64 [a]) with
      (String (table_b2a_base64 (sextet0 (Byte.to_N a)))
      (String (table_b2a_base64 (N.shiftl (N.land (Byte.to_N a) 3) 4))
      (String BASE64_PAD (String BASE64_PAD EmptyString)))).
    cbn [is_ascii]. now rewrite !table_b2a_ascii.
  - destruct (regroup (Byte.to_N a) (Byte.to_N b) (to_N_lt a) (to_N_lt b))
      as ((A0 & A1 & _) & _).
    destruct (regroup (Byte.to_N b) (Byte.to_N b) (to_N_lt b) (to_N_lt b))
      as ((_ & _ & _ & _ & _ & B2) & _).
    change (b2a_base64 [a; b]) with
      (String (table_b2a_base64 (sextet0 (Byte.to_N a)))
      (String (table_b2a_base64 (sextet1 (Byte.to_N a) (Byte.to_N b)))
      (String (table_b2a_base64 (N.shiftl (N.land (Byte.to_N b) 15) 2))
      (String BASE64_PAD EmptyString)))).
    cbn [is_ascii]. now rewrite !table_b2a_ascii.
  - destruct (regroup (Byte.to_N a) (Byte.to_N b) (to_N_lt a) (to_N_lt b))
      as ((A0 & A1 & _) & _).
    destruct (regroup (Byte.to_N b) (Byte.to_N c) (to_N_lt b) (to_N_lt c))
      as ((_ & _ & B2 & _) & _).
    destruct (regroup (Byte.to_N c) (Byte.to_N c) (to_N_lt c) (to_N_lt c))
      as ((_ & _ & _ & C3 & _) & _).
    change (b2a_base64 (a :: b :: c :: rest)) with
      (String (table_b2a_base64 (sextet0 (Byte.to_N a)))
      (String (table_b2a_base64 (sextet1 (Byte.to_N a) (Byte.to_N b)))
      (String (table_b2a_base64 (sextet2 (Byte.to_N b) (Byte.to_N c)))
      (String (table_b2a_base64 (sextet3 (Byte.to_N c)))
      (b2a_base64 rest))))).
    cbn [is_ascii]. now rewrite !table_b2a_ascii, IH.
Qed.

End Codec.

(** C8. For every byte sequence [b], [base64.b64decode] applied to the
    string [base64.b64encode] makes of [b] returns [b]; the encoder is a
    total function of the bytes, with no failure path. *)
Theorem b64decode_b64encode (b : bytes) :
  b64decode (JStr (b64encode b)) = Ok b.
Proof.
  unfold b64decode, b64encode, a2b_base64.
  rewrite b2a_base64_is_ascii. apply (a2b_loop_b2a b 0%N 0%N []).
Qed.

(* ================================================================== *)
(** ** Traces and steps *)

(** Destructs what the goal or a hypothesis matches on. *)
Ltac break_match :=
  match goal with
  | |- context [match ?x with _ => _ end] => destruct x eqn:?
  | H : context [match ?x with _ => _ end] |- _ => destruct x eqn:?
  end.

(** Splits the equations between pairs. *)
Ltac split_pairs :=
  repeat match goal with
         | H : (_, _) = (_, _) |- _ => inversion H; subst; clear H
         end.

Section Traces.

Open Scope list_scope.

Lemma send_attempts_app (t1 t2 : list event) :
  send_attempts (t1 ++ t2) = send_attempts t1 ++ send_attempts t2.
Proof.
  induction t1 as [|[] t1 IH]; cbn; now rewrite ?IH.
Qed.

Lemma invocations_app (t1 t2 : list event) :
  invocations (t1 ++ t2) = invocations t1 ++ invocations t2.
Proof.
  induction t1 as [|[] t1 IH]; cbn; now rewrite ?IH.
Qed.

Lemma wire_app (t1 t2 : list event) :
  wire (t1 ++ t2) = wire t1 ++ wire t2.
Proof.
  induction t1 as [|[? []| | |] t1 IH]; cbn; now rewrite ?IH.
Qed.

(** The media branch sends nothing and calls the logger never. *)
Lemma handle_media_effects (cb : callback) (data : json) :
  send_attempts (fst (handle_media cb data)) = []
  /\ logged (fst (handle_media cb data)) = [].
Proof.
  unfold handle_media. repeat break_match; cbn; now split.
Qed.

(** The handler touches the stream id on a start envelope only. *)
Lemma handle_keeps_stream_sid (self : TwilioAudioInterface) (data : json) :
  is_event "start" data = false ->
  fst (fst (handle_twilio_message self data)) = self.
Proof.
  unfold is_event, handle_twilio_message. intros H.
  destruct (get data "event") as [event_type|e]; [|reflexivity].
  rewrite H. repeat break_match; reflexivity.
Qed.


(** The handler never calls the transport. *)
Lemma handle_sends_nothing (self : TwilioAudioInterface) (data : json) :
  send_attempts (snd (fst (handle_twilio_message self data))) = [].
Proof.
  unfold handle_twilio_message.
  destruct (get data "event") as [event_type|e]; [|reflexivity].
  destruct (eq_str event_type "start").
  - break_match; reflexivity.
  - destruct (eq_str event_type "media"), (input_callback self) as [cb|];
      try reflexivity.
    pose proof (handle_media_effects cb data) as (H & _).
    destruct (handle_media cb data). exact H.
Qed.

(** Without a registered consumer the handler invokes nothing. *)
Lemma handle_unregistered (self : TwilioAudioInterface) (data : json) :
  input_callback self = None ->
  invocations (snd (fst (handle_twilio_message self data))) = [].
Proof.
  unfold handle_twilio_message. intros H. rewrite H.
  repeat break_match; reflexivity.
Qed.

(** Without a stream id neither coroutine calls the transport. *)
Lemma run_task_no_stream (self : TwilioAudioInterface) (ws : WebSocket)
    (t : task) :
  truthy (stream_sid self) = false ->
  send_attempts (fst (run_task self ws t)) = []
  /\ snd (run_task self ws t) = Returned.
Proof.
  intros H. destruct t; cbn;
    unfold send_audio_to_twilio, send_clear_message_to_twilio;
    rewrite H; now split.
Qed.

(** The coroutines invoke no consumer. *)
Lemma run_task_invokes_nothing (self : TwilioAudioInterface) (ws : WebSocket)
    (t : task) :
  invocations (fst (run_task self ws t)) = [].
Proof.
  destruct t; cbn;
    unfold send_audio_to_twilio, send_clear_message_to_twilio,
      send_audio_try, send_audio_except, await_send_text;
    repeat break_match; cbn;
    split_pairs; reflexivity.
Qed.

(** While the stream id is absent and no start envelope is processed, it
    stays absent and the transport is not called. *)
Lemma step_without_stream (w : world) (a : action) :
  truthy (stream_sid (adapter w)) = false ->
  not_start_envelope a = true ->
  truthy (stream_sid (adapter (step w a))) = false
  /\ send_attempts (trace (step w a)) = send_attempts (trace w).
Proof.
  intros Hsid Ha. destruct a as [cb| |audio| |data|ws]; cbn.
  - split; [exact Hsid|]. rewrite send_attempts_app. cbn. apply app_nil_r.
  - now split.
  - now split.
  - now split.
  - unfold not_start_envelope in Ha. cbn in Ha. apply negb_true_iff in Ha.
    pose proof (handle_keeps_stream_sid (adapter w) data Ha) as Hk.
    pose proof (handle_sends_nothing (adapter w) data) as Hs.
    destruct (handle_twilio_message (adapter w) data) as [[self tr] o].
    cbn in *. subst self. split; [exact Hsid|].
    rewrite send_attempts_app, Hs. apply app_nil_r.
  - destruct (ready w) as [|t rest]; [now split|].
    pose proof (run_task_no_stream (adapter w) ws t Hsid) as (Hs & _).
    destruct (run_task (adapter w) ws t) as [tr o]. cbn in *.
    split; [exact Hsid|]. rewrite send_attempts_app, Hs. apply app_nil_r.
Qed.

Lemma run_without_stream (acts : list action) :
  forall w,
    truthy (stream_sid (adapter w)) = false ->
    forallb not_start_envelope acts = true ->
    truthy (stream_sid (adapter (run w acts))) = false
    /\ send_attempts (trace (run w acts)) = send_attempts (trace w).
Proof.
  induction acts as [|a acts IH]; intros w Hsid Hall; [now split|].
  cbn in Hall. apply andb_prop in Hall. destruct Hall as [Ha Hall].
  destruct (step_without_stream w a Hsid Ha) as [Hsid' Hs].
  destruct (IH (step w a) Hsid' Hall) as [Hsid'' Hs'].
  change (run w (a :: acts)) with (run (step w a) acts).
  split; [exact Hsid''|]. now rewrite Hs'.
Qed.



(** The decoding loop fails with [binascii.Error] only. *)
Lemma a2b_loop_raises (data : string) :
  forall quad_pos leftchar pads out e,
    a2b_loop data quad_pos leftchar pads out = Raise e -> e = BinasciiError.
Proof.
  induction data as [|c rest IH]; intros quad_pos leftchar pads out e; cbn.
  - destruct (quad_pos =? 0)%N; intros H; now inversion H.
  - repeat break_match; intros H; try discriminate; eapply IH; exact H.
Qed.

Lemma getitem2_raises (data : json) (k1 k2 : string) (e : exn) :
  getitem2 data k1 k2 = Raise e -> e = KeyError \/ e = TypeError.
Proof.
  unfold getitem2, getitem, bind.
  repeat break_match; intros H; inversion H; subst; try discriminate;
    repeat match goal with
           | E : Raise _ = Raise _ |- _ => inversion E; subst; clear E
           end; auto.
Qed.

Lemma b64decode_raises (p : json) (e : exn) :
  b64decode p = Raise e ->
  e = TypeError \/ e = ValueError \/ e = BinasciiError.
Proof.
  unfold b64decode, a2b_base64.
  repeat break_match; intros H; try (inversion H; subst; now auto).
  apply a2b_loop_raises in H. auto.
Qed.

(** An exception leaves the media branch either before the consumer is
    invoked, from a lookup or from the decoding, or out of the consumer,
    which has then been invoked once. *)
Lemma handle_media_raises (cb : callback) (data : json) (e : exn) :
  snd (handle_media cb data) = Raised e ->
  (invocations (fst (handle_media cb data)) = []
   /\ (e = KeyError \/ e = TypeError \/ e = ValueError \/ e = BinasciiError))
  \/ (exists p audio,
        getitem2 data "media" "payload" = Ok p
        /\ b64decode p = Ok audio
        /\ invocations (fst (handle_media cb data)) = [(cb, audio)]
        /\ raises cb audio = Some e).
Proof.
  unfold handle_media.
  destruct (getitem2 data "media" "payload") as [p|e0] eqn:Hp; cbn [bind].
  - destruct (len p) as [n|e0] eqn:Hlen.
    + destruct (b64decode p) as [audio|e1] eqn:Hdec; cbn.
      * unfold call_outcome.
        destruct (raises cb audio) eqn:Hr; intros H; inversion H; subst.
        right. exists p, audio. auto.
      * intros H; inversion H; subst. left. split; [reflexivity|].
        destruct (b64decode_raises p e Hdec) as [|[|]]; auto.
    + cbn. intros H; inversion H; subst. left. split; [reflexivity|].
      destruct p; inversion Hlen; auto.
  - cbn. intros H; inversion H; subst. left. split; [reflexivity|].
    destruct (getitem2_raises _ _ _ _ Hp); auto.
Qed.

End Traces.

(* ================================================================== *)
(** ** The outbound coroutines *)

Section Outbound.

Open Scope list_scope.

Variable self : TwilioAudioInterface.
Variable ws : WebSocket.

(** With a stream id, on a connected transport that sends the frame, the
    audio coroutine calls [send_text] once, with the media envelope. *)
Lemma send_audio_connected (audio : bytes) :
  truthy (stream_sid self) = true ->
  connected ws = true ->
  send_text ws (Json.dumps
    (JObj [("event", JStr "media"); ("streamSid", stream_sid self);
           ("media", JObj [("payload", JStr (b64encode audio))])])) = Sent ->
  send_audio_to_twilio self ws audio =
  ([Log INFO (PreparingToSend (stream_sid self));
    Log DEBUG (PayloadSize (List.length audio));
    Log DEBUG (Base64Size (String.length (b64encode audio)));
    SendText (Json.dumps
      (JObj [("event", JStr "media"); ("streamSid", stream_sid self);
             ("media", JObj [("payload", JStr (b64encode audio))])])) Sent;
    Log INFO AudioSent], Returned).
Proof.
  intros Hsid Hc Hs.
  unfold send_audio_to_twilio, send_audio_try, await_send_text.
  now rewrite Hsid, Hc, Hs.
Qed.

Lemma send_clear_connected :
  truthy (stream_sid self) = true ->
  connected ws = true ->
  send_text ws (Json.dumps
    (JObj [("event", JStr "clear"); ("streamSid", stream_sid self)])) = Sent ->
  send_clear_message_to_twilio self ws =
  ([SendText (Json.dumps
      (JObj [("event", JStr "clear"); ("streamSid", stream_sid self)])) Sent],
   Returned).
Proof.
  intros Hsid Hc Hs.
  unfold send_clear_message_to_twilio, await_send_text.
  now rewrite Hsid, Hc, Hs.
Qed.

(** On a transport that is not connected neither coroutine calls
    [send_text], and both return. *)
Lemma run_task_not_connected (t : task) :
  connected ws = false ->
  send_attempts (fst (run_task self ws t)) = []
  /\ snd (run_task self ws t) = Returned.
Proof.
  intros Hc. destruct t; cbn;
    unfold send_audio_to_twilio, send_clear_message_to_twilio, send_audio_try;
    rewrite Hc; destruct (truthy (stream_sid self)); now split.
Qed.

(** No exception leaves the audio coroutine. *)
Lemma send_audio_never_raises (audio : bytes) (e : exn) :
  snd (send_audio_to_twilio self ws audio) <> Raised e.
Proof.
  unfold send_audio_to_twilio, send_audio_try, send_audio_except,
    await_send_text.
  repeat break_match; cbn;
    split_pairs; discriminate.
Qed.

(** An exception that leaves the clear coroutine is neither a disconnect
    nor a runtime error. *)
Lemma send_clear_raises (e : exn) :
  snd (send_clear_message_to_twilio self ws) = Raised e ->
  isinstance e WebSocketDisconnect = false /\ isinstance e RuntimeError = false.
Proof.
  unfold send_clear_message_to_twilio, await_send_text.
  repeat break_match; cbn; intros H;
    split_pairs; try discriminate.
  inversion H; subst.
  match goal with
  | E : _ || _ = false |- _ => apply orb_false_iff in E; exact E
  end.
Qed.

End Outbound.

(* ================================================================== *)
(** ** The scenarios and properties of the specification *)

Section Claims.

Open Scope list_scope.

(** C1. Scenario A: after the start envelope with streamSid CA123, a call
    of [output] with the bytes 01 02 and a connected transport puts exactly
    one frame on the wire; it is [json.dumps] of the media envelope with
    that streamSid and the payload AQI=, the base64 text of the bytes. The
    frame is written with the default separators of [json.dumps]; the same
    value written without whitespace is the text of the scenario. *)
Theorem scenario_A_media_frame (ws : WebSocket) :
  connected ws = true ->
  send_text ws (Json.dumps (media_frame "CA123" "AQI=")) = Sent ->
  let w := run init [Receive (start_envelope "CA123");
                     CallOutput [x01; x02];
                     RunTask ws] in
  wire (trace w) = [Json.dumps (media_frame "CA123" "AQI=")]
  /\ send_attempts (trace w) = [Json.dumps (media_frame "CA123" "AQI=")]
  /\ media_frame "CA123" "AQI=" = media_frame "CA123" (b64encode [x01; x02])
  /\ Json.dumps (media_frame "CA123" "AQI=") =
     json_text "{'event': 'media', 'streamSid': 'CA123', 'media': {'payload': 'AQI='}}"
  /\ Json.dumps_compact (media_frame "CA123" "AQI=") =
     json_text "{'event':'media','streamSid':'CA123','media':{'payload':'AQI='}}".
Proof.
  intros Hc Hs w.
  assert (Htr : trace w =
    [] ++ [] ++ fst (send_audio_to_twilio
           {| input_callback := None; stream_sid := JStr "CA123" |}
           ws [x01; x02])) by reflexivity.
  rewrite (send_audio_connected
             {| input_callback := None; stream_sid := JStr "CA123" |}
             ws [x01; x02] eq_refl Hc Hs) in Htr.
  rewrite Htr. repeat split.
Qed.

Lemma scenario_A_media_frame_witness :
  wire (trace (run init [Receive (start_envelope "CA123");
                         CallOutput [x01; x02];
                         RunTask connected_ws])) =
  [Json.dumps (media_frame "CA123" "AQI=")].
Proof.
  apply (scenario_A_media_frame connected_ws); reflexivity.
Defined.

(** C7. Scenario B: with the stream id CA123 active, nothing else
    scheduled and the transport connected, a call of [interrupt] puts
    exactly one frame on the wire: [json.dumps] of the clear envelope with
    that streamSid. *)
Theorem scenario_B_clear_frame (w : world) (ws : WebSocket) :
  stream_sid (adapter w) = JStr "CA123" ->
  ready w = [] ->
  connected ws = true ->
  send_text ws (Json.dumps (clear_frame "CA123")) = Sent ->
  let w' := run w [CallInterrupt; RunTask ws] in
  trace w' = trace w ++ [SendText (Json.dumps (clear_frame "CA123")) Sent]
  /\ wire (trace w') = wire (trace w) ++ [Json.dumps (clear_frame "CA123")]
  /\ Json.dumps (clear_frame "CA123") =
     json_text "{'event': 'clear', 'streamSid': 'CA123'}"
  /\ Json.dumps_compact (clear_frame "CA123") =
     json_text "{'event':'clear','streamSid':'CA123'}".
Proof.
  intros Hsid Hready Hc Hs w'.
  assert (Htr : trace w' =
    trace w ++ fst (send_clear_message_to_twilio (adapter w) ws)).
  { unfold w', run. cbn. now rewrite Hready. }
  rewrite send_clear_connected in Htr;
    rewrite ?Hsid; try reflexivity; try assumption.
  rewrite Htr, wire_app, Hsid. repeat split.
Qed.

Lemma scenario_B_clear_frame_witness :
  let w := run init [Receive (start_envelope "CA123");
                     CallOutput [x01; x02];
                     RunTask connected_ws] in
  wire (trace (run w [CallInterrupt; RunTask connected_ws])) =
  wire (trace w) ++ [Json.dumps (clear_frame "CA123")].
Proof.
  apply (scenario_B_clear_frame
           (run init [Receive (start_envelope "CA123");
                      CallOutput [x01; x02];
                      RunTask connected_ws]) connected_ws); reflexivity.
Defined.

(** C5. As long as no start envelope has been processed, the audio
    coroutine of any [output] logs that no stream id is available and
    returns, and [send_text] is never called, whatever else is called,
    received or run by the loop in between and whatever the transport is. *)
Theorem no_stream_no_send (acts : list action) (audio : bytes) (ws : WebSocket) :
  forallb not_start_envelope acts = true ->
  send_audio_to_twilio (adapter (run init acts)) ws audio =
    ([Log WARNING NoStreamSid], Returned)
  /\ send_attempts (trace (run init acts)) = [].
Proof.
  intros Hall.
  destruct (run_without_stream acts init eq_refl Hall) as [Hsid Hs].
  split; [|exact Hs].
  unfold send_audio_to_twilio. now rewrite Hsid.
Qed.

Lemma no_stream_no_send_witness :
  send_attempts
    (trace (run init [CallStart (consumer 1); Receive (media_envelope "AQI=");
                      CallOutput [x01; x02]; RunTask connected_ws])) = [].
Proof.
  apply (no_stream_no_send
           [CallStart (consumer 1); Receive (media_envelope "AQI=");
            CallOutput [x01; x02]; RunTask connected_ws] [] connected_ws).
  reflexivity.
Defined.

(** C2. While no consumer is registered, no envelope makes the handler
    invoke anything; once [start] has registered a consumer, the same
    media envelope, whose payload decodes to [audio], makes the handler
    invoke that consumer exactly once, with [audio]; nothing leaves the
    handler but what that call of the consumer raises. *)
Theorem consumer_gating (w : world) (cb : callback) (data p : json)
    (audio : bytes) :
  input_callback (adapter w) = None ->
  is_event "media" data = true ->
  getitem2 data "media" "payload" = Ok p ->
  b64decode p = Ok audio ->
  (forall data', invocations (trace (step w (Receive data'))) =
                 invocations (trace w))
  /\ invocations (trace (run w [Receive data; CallStart cb; Receive data])) =
     invocations (trace w) ++ [(cb, audio)]
  /\ escaped (run w [Receive data; CallStart cb; Receive data]) =
     escaped w ++ match raises cb audio with
                  | Some e => [e]
                  | None => []
                  end.
Proof.
  intros Hcb Hev Hp Hdec.
  assert (Hlen : exists n, len p = Ok n).
  { destruct p; try discriminate. now eexists. }
  destruct Hlen as [n Hlen].
  assert (Hget : exists v, get data "event" = Ok v /\ eq_str v "media" = true).
  { unfold is_event in Hev. destruct (get data "event"); [|discriminate].
    now eexists. }
  destruct Hget as (v & Hget & Hv).
  assert (Hstart : eq_str v "start" = false).
  { destruct v; try reflexivity. cbn in *. apply String.eqb_eq in Hv.
    now subst. }
  assert (H1 : handle_twilio_message (adapter w) data =
               (adapter w, [], Returned)).
  { unfold handle_twilio_message. now rewrite Hget, Hstart, Hv, Hcb. }
  assert (H2 : forall self, input_callback self = Some cb ->
             handle_twilio_message self data =
             (self, [Stdout (MediaReceived n);
                     Stdout (AudioFrameSize (List.length audio));
                     Invoke cb audio], call_outcome cb audio)).
  { intros self Hself. unfold handle_twilio_message, handle_media.
    rewrite Hget, Hstart, Hv, Hself, Hp. cbn. now rewrite Hlen, Hdec. }
  split; [|split].
  - intros data'. cbn. rewrite invocations_app.
    rewrite (handle_unregistered (adapter w) data' Hcb). apply app_nil_r.
  - unfold run. cbn. rewrite H1. cbn. rewrite H2 by reflexivity. cbn.
    rewrite !invocations_app. cbn. now rewrite !app_nil_r.
  - unfold run. cbn. rewrite H1. cbn. rewrite H2 by reflexivity. cbn.
    unfold call_outcome. destruct (raises cb audio); [reflexivity|].
    now rewrite app_nil_r.
Qed.

Lemma consumer_gating_witness :
  invocations
    (trace (run init [Receive (media_envelope "AQI="); CallStart (consumer 7);
                      Receive (media_envelope "AQI=")])) =
  [(consumer 7, [x01; x02])].
Proof.
  apply (consumer_gating init (consumer 7) (media_envelope "AQI=") (JStr "AQI=")
           [x01; x02]); reflexivity.
Defined.

(** C10. An envelope whose event is neither start nor media, a stop
    envelope among them, leaves the stream id and the registered consumer
    as they are and has no effect at all; [stop] is what clears them. *)
Theorem other_events_change_nothing (self : TwilioAudioInterface)
    (kv : list (string * json)) :
  is_event "start" (JObj kv) = false ->
  is_event "media" (JObj kv) = false ->
  handle_twilio_message self (JObj kv) = (self, [], Returned)
  /\ stop self = {| input_callback := None; stream_sid := JNull |}.
Proof.
  unfold is_event, handle_twilio_message. cbn [get].
  destruct (lookup "event" kv) as [v|]; intros Hs Hm; split;
    try reflexivity.
  - rewrite Hs, Hm. reflexivity.
Qed.

Lemma other_events_change_nothing_witness :
  handle_twilio_message
    {| input_callback := Some (consumer 7); stream_sid := JStr "CA123" |}
    (JObj [("event", JStr "stop"); ("streamSid", JStr "CA123")]) =
  ({| input_callback := Some (consumer 7); stream_sid := JStr "CA123" |}, [], Returned).
Proof.
  apply (other_events_change_nothing
           {| input_callback := Some (consumer 7); stream_sid := JStr "CA123" |}
           [("event", JStr "stop"); ("streamSid", JStr "CA123")]);
    reflexivity.
Defined.

(** C3, as the specification states it, fails on Scenario D: with a
    consumer registered, the media envelope whose payload is
    not-valid-base64! makes the handler raise [binascii.Error] to the code
    awaiting it, and nothing is logged. *)
Lemma scenario_D_handler_raises :
  handle_twilio_message
    {| input_callback := Some (consumer 7); stream_sid := JStr "CA123" |}
    (media_envelope "not-valid-base64!") =
  ({| input_callback := Some (consumer 7); stream_sid := JStr "CA123" |},
   [Stdout (MediaReceived 17)], Raised BinasciiError)
  /\ logged [Stdout (MediaReceived 17)] = [].
Proof. split; reflexivity. Qed.

(** C3, amended. The handler has no [try]: when a required field of a
    start envelope is missing, or when the payload of a media envelope is
    missing or rejected by [base64.b64decode] while a consumer is
    registered, the handler raises the exception to the code awaiting it,
    and the consumer is not invoked. Whenever the handler raises it has
    logged nothing and has left the stream id and the consumer as they
    were, so the next envelope is handled as if the bad one had not
    arrived. An exception that leaves the handler comes from a lookup or
    from the decoding, and then the consumer has not been invoked, or it
    is what the consumer raised, whose call is not guarded either. A
    media envelope that arrives while no consumer is registered is
    dropped without being looked into and does not raise. *)
Theorem inbound_errors_propagate (self : TwilioAudioInterface)
    (kv : list (string * json)) (cb : callback) (e : exn) :
  (forall self' tr e',
     handle_twilio_message self (JObj kv) = (self', tr, Raised e') ->
     self' = self /\ logged tr = [] /\ send_attempts tr = []
     /\ ((invocations tr = []
          /\ (e' = KeyError \/ e' = TypeError \/ e' = ValueError
              \/ e' = BinasciiError))
         \/ (exists cb' p audio,
               input_callback self = Some cb'
               /\ getitem2 (JObj kv) "media" "payload" = Ok p
               /\ b64decode p = Ok audio
               /\ invocations tr = [(cb', audio)]
               /\ raises cb' audio = Some e')))
  /\ (is_event "start" (JObj kv) = true ->
      getitem2 (JObj kv) "start" "streamSid" = Raise e ->
      handle_twilio_message self (JObj kv) = (self, [], Raised e))
  /\ (is_event "media" (JObj kv) = true ->
      input_callback self = Some cb ->
      (p <- getitem2 (JObj kv) "media" "payload" ;; b64decode p) = Raise e ->
      handle_twilio_message self (JObj kv) =
      match (p <- getitem2 (JObj kv) "media" "payload" ;; len p) with
      | Ok n => (self, [Stdout (MediaReceived n)], Raised e)
      | Raise e0 => (self, [], Raised e0)
      end)
  /\ (is_event "media" (JObj kv) = true ->
      input_callback self = None ->
      handle_twilio_message self (JObj kv) = (self, [], Returned)).
Proof.
  set (data := JObj kv). split; [|split; [|split]].
  - intros self' tr e' H.
    unfold handle_twilio_message in H.
    destruct (get data "event") as [v|e0] eqn:Hget;
      [|unfold data in Hget; cbn in Hget; destruct (lookup "event" kv);
        discriminate].
    destruct (eq_str v "start").
    + destruct (getitem2 data "start" "streamSid") eqn:Hsid;
        inversion H; subst. repeat split. left. split; [reflexivity|].
      destruct (getitem2_raises _ _ _ _ Hsid); auto.
    + destruct (eq_str v "media"), (input_callback self) as [cb0|] eqn:Hcb0;
        try (now inversion H).
      pose proof (handle_media_effects cb0 data) as (Hs & Hl).
      pose proof (handle_media_raises cb0 data e') as He.
      destruct (handle_media cb0 data) as [tr0 o0]. cbn in *.
      inversion H; subst. repeat split; auto.
      destruct (He eq_refl) as [Hleft|(p & audio & Hp & Hdec & Hi & Hr)];
        [now left|].
      right. exists cb0, p, audio. auto.
  - unfold is_event, handle_twilio_message. intros Hev Hget.
    destruct (get data "event") as [v|]; [|discriminate].
    now rewrite Hev, Hget.
  - unfold is_event, handle_twilio_message, handle_media.
    intros Hev Hcb Hdec.
    destruct (get data "event") as [v|]; [|discriminate].
    assert (Hstart : eq_str v "start" = false).
    { destruct v; try reflexivity. cbn in *. apply String.eqb_eq in Hev.
      now subst. }
    rewrite Hstart, Hev, Hcb, Hdec.
    now destruct (p <- getitem2 data "media" "payload" ;; len p).
  - unfold is_event, handle_twilio_message. intros Hev Hcb.
    destruct (get data "event") as [v|]; [|discriminate].
    assert (Hstart : eq_str v "start" = false).
    { destruct v; try reflexivity. cbn in *. apply String.eqb_eq in Hev.
      now subst. }
    now rewrite Hstart, Hev, Hcb.
Qed.

Lemma inbound_errors_propagate_witness :
  handle_twilio_message __init__ (JObj [("event", JStr "start")]) =
    (__init__, [], Raised KeyError)
  /\ handle_twilio_message
       {| input_callback := Some (consumer 7); stream_sid := JNull |}
       (media_envelope "not-valid-base64!") =
     ({| input_callback := Some (consumer 7); stream_sid := JNull |},
      [Stdout (MediaReceived 17)], Raised BinasciiError)
  /\ handle_twilio_message __init__ (JObj [("event", JStr "media")]) =
     (__init__, [], Returned).
Proof.
  split; [|split].
  - destruct (inbound_errors_propagate __init__ [("event", JStr "start")]
                (consumer 0) KeyError) as (_ & H & _).
    apply H; reflexivity.
  - destruct (inbound_errors_propagate
                {| input_callback := Some (consumer 7); stream_sid := JNull |}
                [("event", JStr "media");
                 ("media", JObj [("payload", JStr "not-valid-base64!")])]
                (consumer 7) BinasciiError) as (_ & _ & H & _).
    apply H; reflexivity.
  - destruct (inbound_errors_propagate __init__ [("event", JStr "media")]
                (consumer 0) KeyError) as (_ & _ & _ & H).
    apply H; reflexivity.
Defined.

(** C4, as the specification states it, fails for the clear coroutine: an
    exception of the send that is neither a disconnect nor a runtime error
    is not caught, it leaves the coroutine. *)
Lemma clear_task_lets_other_faults_out :
  send_clear_message_to_twilio
    {| input_callback := None; stream_sid := JStr "CA123" |}
    {| application_state := CONNECTED; send_text := fun _ => Fails OSError |} =
  ([SendText (Json.dumps (clear_frame "CA123")) (Fails OSError)],
   Raised OSError).
Proof. reflexivity. Qed.

(** C4, amended. On a transport that is not connected neither coroutine
    calls [send_text], and both return. No exception leaves the audio
    coroutine: an exception of the send is caught there and logged, at
    ERROR level, as a closed connection, as a runtime error or as an
    unexpected error, and the coroutine returns. The clear coroutine
    catches a disconnect and a runtime error of the send, silently; any
    other exception of the send leaves it, and ends in the future that
    [interrupt] dropped, the adapter being as it was. *)
Theorem outbound_failures_stay_in_the_loop (self : TwilioAudioInterface)
    (ws : WebSocket) (t : task) (audio : bytes) (e : exn) (w : world) :
  (connected ws = false ->
   send_attempts (fst (run_task self ws t)) = []
   /\ snd (run_task self ws t) = Returned)
  /\ (forall e', snd (send_audio_to_twilio self ws audio) <> Raised e')
  /\ (truthy (stream_sid self) = true ->
      connected ws = true ->
      send_text ws
        (Json.dumps (envelope_of (stream_sid self) (SendAudio audio))) =
        Fails e ->
      send_audio_to_twilio self ws audio =
      ([Log INFO (PreparingToSend (stream_sid self));
        Log DEBUG (PayloadSize (List.length audio));
        Log DEBUG (Base64Size (String.length (b64encode audio)));
        SendText
          (Json.dumps (envelope_of (stream_sid self) (SendAudio audio)))
          (Fails e);
        Log ERROR (if isinstance e WebSocketDisconnect then ConnectionClosed
                   else if isinstance e RuntimeError then RuntimeErrorRaised
                   else UnexpectedError e)],
       Returned))
  /\ (truthy (stream_sid self) = true ->
      connected ws = true ->
      send_text ws (Json.dumps (envelope_of (stream_sid self) SendClear)) =
        Fails e ->
      send_clear_message_to_twilio self ws =
      ([SendText (Json.dumps (envelope_of (stream_sid self) SendClear))
          (Fails e)],
       if isinstance e WebSocketDisconnect || isinstance e RuntimeError
       then Returned else Raised e))
  /\ (ready w = [] ->
      truthy (stream_sid (adapter w)) = true ->
      connected ws = true ->
      send_text ws
        (Json.dumps (envelope_of (stream_sid (adapter w)) SendClear)) =
        Fails e ->
      isinstance e WebSocketDisconnect || isinstance e RuntimeError = false ->
      futures (run w [CallInterrupt; RunTask ws]) = futures w ++ [Raised e]
      /\ escaped (run w [CallInterrupt; RunTask ws]) = escaped w
      /\ adapter (run w [CallInterrupt; RunTask ws]) = adapter w).
Proof.
  assert (Hclear :
    truthy (stream_sid self) = true -> connected ws = true ->
    send_text ws (Json.dumps (envelope_of (stream_sid self) SendClear)) =
      Fails e ->
    send_clear_message_to_twilio self ws =
    ([SendText (Json.dumps (envelope_of (stream_sid self) SendClear))
        (Fails e)],
     if isinstance e WebSocketDisconnect || isinstance e RuntimeError
     then Returned else Raised e)).
  { intros Hsid Hc Hs. cbn [envelope_of] in Hs.
    unfold send_clear_message_to_twilio, await_send_text.
    rewrite Hsid, Hc, Hs. cbn [envelope_of].
    now destruct (isinstance e WebSocketDisconnect || isinstance e RuntimeError). }
  split; [|split; [|split; [|split]]].
  - apply run_task_not_connected.
  - intros e'. apply send_audio_never_raises.
  - intros Hsid Hc Hs. cbn [envelope_of] in Hs.
    unfold send_audio_to_twilio, send_audio_try, await_send_text,
      send_audio_except.
    rewrite Hsid, Hc, Hs. cbn [envelope_of].
    destruct (isinstance e WebSocketDisconnect), (isinstance e RuntimeError);
      reflexivity.
  - exact Hclear.
  - intros Hready Hsid Hc Hs He. unfold run. cbn. rewrite Hready. cbn.
    assert (Hr : send_clear_message_to_twilio (adapter w) ws =
                 ([SendText
                     (Json.dumps
                        (envelope_of (stream_sid (adapter w)) SendClear))
                     (Fails e)], Raised e)).
    { cbn [envelope_of] in Hs.
      unfold send_clear_message_to_twilio, await_send_text.
      now rewrite Hsid, Hc, Hs, He. }
    rewrite Hr. repeat split.
Qed.

Lemma outbound_failures_stay_in_the_loop_witness :
  (send_attempts
     (fst (run_task {| input_callback := None; stream_sid := JStr "CA123" |}
             {| application_state := DISCONNECTED; send_text := fun _ => Sent |}
             SendClear)) = []
   /\ snd (run_task {| input_callback := None; stream_sid := JStr "CA123" |}
             {| application_state := DISCONNECTED; send_text := fun _ => Sent |}
             SendClear) = Returned)
  /\ snd (send_audio_to_twilio
            {| input_callback := None; stream_sid := JStr "CA123" |}
            {| application_state := CONNECTED;
               send_text := fun _ => Fails OSError |} [x01; x02]) = Returned
  /\ snd (send_clear_message_to_twilio
            {| input_callback := None; stream_sid := JStr "CA123" |}
            {| application_state := CONNECTED;
               send_text := fun _ => Fails RuntimeError |}) = Returned
  /\ futures
       (run (step init (Receive (start_envelope "CA123")))
          [CallInterrupt;
           RunTask {| application_state := CONNECTED;
                      send_text := fun _ => Fails OSError |}]) =
     [Raised OSError].
Proof.
  split; [|split; [|split]].
  - apply (outbound_failures_stay_in_the_loop
             {| input_callback := None; stream_sid := JStr "CA123" |}
             {| application_state := DISCONNECTED; send_text := fun _ => Sent |}
             SendClear [] OSError init).
    reflexivity.
  - destruct (outbound_failures_stay_in_the_loop
                {| input_callback := None; stream_sid := JStr "CA123" |}
                {| application_state := CONNECTED;
                   send_text := fun _ => Fails OSError |}
                SendClear [x01; x02] OSError init) as (_ & _ & H & _).
    rewrite H; reflexivity.
  - destruct (outbound_failures_stay_in_the_loop
                {| input_callback := None; stream_sid := JStr "CA123" |}
                {| application_state := CONNECTED;
                   send_text := fun _ => Fails RuntimeError |}
                SendClear [] RuntimeError init) as (_ & _ & _ & H & _).
    rewrite H; reflexivity.
  - destruct (outbound_failures_stay_in_the_loop
                {| input_callback := None; stream_sid := JStr "CA123" |}
                {| application_state := CONNECTED;
                   send_text := fun _ => Fails OSError |}
                SendClear [] OSError
                (step init (Receive (start_envelope "CA123"))))
      as (_ & _ & _ & _ & H).
    apply H; reflexivity.
Defined.




End Claims.

(* ================================================================== *)
(** ** More on the codec, as the adapter uses it *)

Section Payload.

Open Scope list_scope.

(** The payload logged as [Base64 audio payload size] has four characters
    for every three bytes of audio, the last group rounded up. *)
Theorem b64encode_length (audio : bytes) :
  String.length (b64encode audio) = 4 * ((List.length audio + 2) / 3).
Proof.
  unfold b64encode.
  induction audio as [|a|a b|a b c rest IH] using list_ind3; try reflexivity.
  change (String.length (b2a_base64 (a :: b :: c :: rest)))
    with (4 + String.length (b2a_base64 rest)).
  rewrite IH.
  change (List.length (a :: b :: c :: rest) + 2)
    with (3 + (List.length rest + 2)).
  replace (3 + (List.length rest + 2)) with (1 * 3 + (List.length rest + 2))
    by reflexivity.
  rewrite Nat.div_add_l by discriminate. lia.
Qed.

(** Two audio frames with the same payload are the same frame. *)
Theorem b64encode_injective (a b : bytes) :
  b64encode a = b64encode b -> a = b.
Proof.
  intros H.
  pose proof (a2b_loop_b2a a 0%N 0%N []) as Ha.
  pose proof (a2b_loop_b2a b 0%N 0%N []) as Hb.
  unfold b64encode in H. rewrite H in Ha. rewrite Ha in Hb.
  now inversion Hb.
Qed.

Lemma b64encode_injective_witness : [x01; x02] = [x01; x02].
Proof. apply (b64encode_injective [x01; x02] [x01; x02]). reflexivity. Defined.

Lemma plain_ok_all (n : N) : (n < 64)%N -> plain_ok n = true.
Proof.
  apply (forallb_below plain_ok 64). vm_compute. reflexivity.
Qed.

Lemma escape_char_table (n : N) :
  (n < 64)%N ->
  Json.escape_char (table_b2a_base64 n) =
  String (table_b2a_base64 n) EmptyString.
Proof.
  intros Hn. apply String.eqb_eq. exact (plain_ok_all n Hn).
Qed.

(** [json.dumps] has nothing to escape in a payload. *)
Lemma escape_b2a_base64 (audio : bytes) :
  Json.escape (b2a_base64 audio) = b2a_base64 audio.
Proof.
  induction audio as [|a|a b|a b c rest IH] using list_ind3.
  - reflexivity.
  - destruct (regroup (Byte.to_N a) (Byte.to_N a) (to_N_lt a) (to_N_lt a))
      as ((B0 & _ & _ & _ & B1 & _) & _).
    change (b2a_base64 [a]) with
      (String (table_b2a_base64 (sextet0 (Byte.to_N a)))
      (String (table_b2a_base64 (N.shiftl (N.land (Byte.to_N a) 3) 4))
      (String BASE64_PAD (String BASE64_PAD EmptyString)))).
    cbn [Json.escape]. now rewrite !escape_char_table.
  - destruct (regroup (Byte.to_N a) (Byte.to_N b) (to_N_lt a) (to_N_lt b))
      as ((A0 & A1 & _) & _).
    destruct (regroup (Byte.to_N b) (Byte.to_N b) (to_N_lt b) (to_N_lt b))
      as ((_ & _ & _ & _ & _ & B2) & _).
    change (b2a_base64 [a; b]) with
      (String (table_b2a_base64 (sextet0 (Byte.to_N a)))
      (String (table_b2a_base64 (sextet1 (Byte.to_N a) (Byte.to_N b)))
      (String (table_b2a_base64 (N.shiftl (N.land (Byte.to_N b) 15) 2))
      (String BASE64_PAD EmptyString)))).
    cbn [Json.escape]. now rewrite !escape_char_table.
  - destruct (regroup (Byte.to_N a) (Byte.to_N b) (to_N_lt a) (to_N_lt b))
      as ((A0 & A1 & _) & _).
    destruct (regroup (Byte.to_N b) (Byte.to_N c) (to_N_lt b) (to_N_lt c))
      as ((_ & _ & B2 & _) & _).
    destruct (regroup (Byte.to_N c) (Byte.to_N c) (to_N_lt c) (to_N_lt c))
      as ((_ & _ & _ & C3 & _) & _).
    change (b2a_base64 (a :: b :: c :: rest)) with
      (String (table_b2a_base64 (sextet0 (Byte.to_N a)))
      (String (table_b2a_base64 (sextet1 (Byte.to_N a) (Byte.to_N b)))
      (String (table_b2a_base64 (sextet2 (Byte.to_N b) (Byte.to_N c)))
      (String (table_b2a_base64 (sextet3 (Byte.to_N c)))
      (b2a_base64 rest))))).
    cbn [Json.escape]. now rewrite !escape_char_table, IH.
Qed.

Lemma string_app_assoc (a b c : string) :
  ((a ++ b) ++ c)%string = (a ++ (b ++ c))%string.
Proof.
  induction a as [|x a IH]; cbn; [reflexivity|now rewrite IH].
Qed.

(** The text of an audio frame, for a stream id that is a string: the
    stream id as a JSON string literal, and the payload between quotes
    exactly as [b64encode] made it. *)
Theorem media_frame_text (sid : string) (audio : bytes) :
  Json.dumps (envelope_of (JStr sid) (SendAudio audio)) =
  (json_text "{'event': 'media', 'streamSid': " ++ Json.quote sid ++
   json_text ", 'media': {'payload': '" ++ b64encode audio ++
   json_text "'}}")%string.
Proof.
  unfold Json.dumps, envelope_of, b64encode. cbn.
  unfold Json.quote. rewrite escape_b2a_base64. cbn.
  repeat (rewrite string_app_assoc; cbn). reflexivity.
Qed.

(** The decoder does not see the characters it skips. *)
Lemma a2b_loop_keep (data : string) :
  forall quad_pos leftchar pads out,
    a2b_loop (keep significant data) quad_pos leftchar pads out =
    a2b_loop data quad_pos leftchar pads out.
Proof.
  induction data as [|c rest IH]; intros quad_pos leftchar pads out;
    [reflexivity|].
  cbn [keep]. unfold significant.
  destruct (Ascii.eqb c BASE64_PAD) eqn:Hpad.
  - cbn [orb a2b_loop]. rewrite Hpad.
    repeat break_match; try reflexivity; apply IH.
  - cbn [orb]. destruct (table_a2b_base64 c) as [v|] eqn:Hv.
    + cbn [a2b_loop]. rewrite Hpad, Hv.
      repeat break_match; apply IH.
    + cbn [a2b_loop]. rewrite Hpad, Hv. apply IH.
Qed.

Lemma is_ascii_keep (f : ascii -> bool) (s : string) :
  is_ascii s = true -> is_ascii (keep f s) = true.
Proof.
  induction s as [|c rest IH]; [reflexivity|].
  cbn. intros H. apply andb_prop in H. destruct H as [Hc Hrest].
  destruct (f c); cbn; rewrite ?Hc; auto.
Qed.

(** Line breaks, blanks and any other ASCII characters outside the base64
    alphabet do not change what a payload decodes to: the payload decodes
    as the payload without them does. *)
Theorem b64decode_skips_other_characters (payload : string) :
  is_ascii payload = true ->
  b64decode (JStr payload) = b64decode (JStr (keep significant payload)).
Proof.
  intros H. unfold b64decode, a2b_base64.
  rewrite H, (is_ascii_keep significant payload H).
  symmetry. apply a2b_loop_keep.
Qed.

Lemma b64decode_skips_other_characters_witness :
  b64decode (JStr "A Q-I=") = b64decode (JStr "AQI=").
Proof.
  apply (b64decode_skips_other_characters "A Q-I="). reflexivity.
Defined.

Lemma a2b_loop_length (data : string) :
  forall quad_pos leftchar pads out audio,
    a2b_loop data quad_pos leftchar pads out = Ok audio ->
    4 * List.length audio <=
    4 * List.length out + 3 * String.length data + slack quad_pos.
Proof.
  induction data as [|c rest IH]; intros quad_pos leftchar pads out audio.
  - cbn. destruct (quad_pos =? 0)%N; intros H; inversion H; subst. lia.
  - cbn [a2b_loop String.length].
    repeat break_match; intros H;
      try (inversion H; subst; lia);
      apply IH in H; rewrite ?length_app in H; unfold slack in *;
      cbn [List.length N.eqb Pos.eqb] in H;
      repeat match goal with
             | E : (_ =? _)%N = _ |- _ => rewrite ?E in H; rewrite ?E; clear E
             end; lia.
Qed.

(** A payload that decodes gives at most three bytes of audio for every
    four of its characters. *)
Theorem b64decode_length (payload : string) (audio : bytes) :
  b64decode (JStr payload) = Ok audio ->
  4 * List.length audio <= 3 * String.length payload.
Proof.
  unfold b64decode, a2b_base64. destruct (is_ascii payload); [|discriminate].
  intros H. apply a2b_loop_length in H. cbn in H. lia.
Qed.

Lemma b64decode_length_witness : 4 * 2 <= 3 * 4.
Proof.
  apply (b64decode_length "AQI=" [x01; x02]). reflexivity.
Defined.

(** What [output] sends comes back as it was: the envelope the audio
    coroutine builds, handled as an inbound envelope while a consumer is
    registered, invokes the consumer once with the very bytes that were
    given to [output]; the handler ends as that call of the consumer
    ends, returning when it returns and raising what it raises. *)
Theorem outbound_envelope_loops_back (self : TwilioAudioInterface)
    (cb : callback) (sid : json) (audio : bytes) :
  input_callback self = Some cb ->
  handle_twilio_message self (envelope_of sid (SendAudio audio)) =
  (self,
   [Stdout (MediaReceived (String.length (b64encode audio)));
    Stdout (AudioFrameSize (List.length audio));
    Invoke cb audio],
   match raises cb audio with
   | Some e => Raised e
   | None => Returned
   end).
Proof.
  intros Hcb. unfold handle_twilio_message, handle_media. cbn.
  rewrite Hcb. unfold b64encode, a2b_base64.
  rewrite b2a_base64_is_ascii, (a2b_loop_b2a audio 0%N 0%N []).
  reflexivity.
Qed.

Lemma outbound_envelope_loops_back_witness :
  handle_twilio_message
    {| input_callback := Some (consumer 7); stream_sid := JNull |}
    (envelope_of (JStr "CA123") (SendAudio [x01; x02])) =
  ({| input_callback := Some (consumer 7); stream_sid := JNull |},
   [Stdout (MediaReceived 4); Stdout (AudioFrameSize 2);
    Invoke (consumer 7) [x01; x02]], Returned).
Proof.
  apply (outbound_envelope_loops_back
           {| input_callback := Some (consumer 7); stream_sid := JNull |} (consumer 7)
           (JStr "CA123") [x01; x02]).
  reflexivity.
Defined.

End Payload.

(* ================================================================== *)
(** ** More on the handler and the coroutines *)

Section Session.

Open Scope list_scope.

(** A start envelope whose streamSid is empty, null, zero or otherwise
    false in a condition leaves the adapter as silent as it is without a
    stream id: nothing is sent until another start envelope comes. *)
Theorem falsy_stream_sid_sends_nothing (w : world) (data sid : json)
    (acts : list action) :
  is_event "start" data = true ->
  getitem2 data "start" "streamSid" = Ok sid ->
  truthy sid = false ->
  forallb not_start_envelope acts = true ->
  stream_sid (adapter (step w (Receive data))) = sid
  /\ send_attempts (trace (run (step w (Receive data)) acts)) =
     send_attempts (trace w).
Proof.
  intros Hev Hsid Hfalse Hall.
  assert (Hh : handle_twilio_message (adapter w) data =
               ({| input_callback := input_callback (adapter w);
                   stream_sid := sid |}, [], Returned)).
  { unfold is_event in Hev. unfold handle_twilio_message.
    destruct (get data "event"); [|discriminate]. now rewrite Hev, Hsid. }
  assert (Hsid' : stream_sid (adapter (step w (Receive data))) = sid).
  { cbn. now rewrite Hh. }
  split; [exact Hsid'|].
  destruct (run_without_stream acts (step w (Receive data))) as [_ Hs];
    [now rewrite Hsid'|exact Hall|].
  rewrite Hs. cbn. rewrite Hh. cbn. now rewrite app_nil_r.
Qed.

Lemma falsy_stream_sid_sends_nothing_witness :
  send_attempts
    (trace (run (step init (Receive (start_envelope EmptyString)))
              [CallOutput [x01; x02]; RunTask connected_ws;
               CallInterrupt; RunTask connected_ws])) = [].
Proof.
  apply (falsy_stream_sid_sends_nothing init (start_envelope EmptyString)
           (JStr EmptyString)
           [CallOutput [x01; x02]; RunTask connected_ws;
            CallInterrupt; RunTask connected_ws]); reflexivity.
Defined.

(** With a stream id and a transport that reports connected, a coroutine
    calls [send_text] once, with its envelope, whatever comes of the call. *)
Lemma run_task_attempt (self : TwilioAudioInterface) (ws : WebSocket)
    (t : task) :
  truthy (stream_sid self) = true ->
  connected ws = true ->
  send_attempts (fst (run_task self ws t)) =
  [Json.dumps (envelope_of (stream_sid self) t)].
Proof.
  intros Hsid Hc.
  destruct t; cbn;
    unfold send_audio_to_twilio, send_clear_message_to_twilio,
      send_audio_try, send_audio_except, await_send_text;
    rewrite Hsid, Hc; repeat break_match; split_pairs; reflexivity.
Qed.

(** A scheduled coroutine calls [send_text] at most once. When it does,
    the stream id is set, the transport reports connected, and the text is
    [json.dumps] of the envelope of the coroutine with the stream id of
    that moment. It never invokes the consumer, and the clear coroutine
    never logs. *)
Theorem coroutine_sends_at_most_once (self : TwilioAudioInterface)
    (ws : WebSocket) (t : task) :
  (send_attempts (fst (run_task self ws t)) = []
   \/ (truthy (stream_sid self) = true /\ connected ws = true
       /\ send_attempts (fst (run_task self ws t)) =
          [Json.dumps (envelope_of (stream_sid self) t)]))
  /\ invocations (fst (run_task self ws t)) = []
  /\ logged (fst (send_clear_message_to_twilio self ws)) = [].
Proof.
  split; [|split].
  - destruct (truthy (stream_sid self)) eqn:Hsid;
      [|left; now apply run_task_no_stream].
    destruct (connected ws) eqn:Hc;
      [|left; now apply run_task_not_connected].
    right. repeat split. now apply run_task_attempt.
  - apply run_task_invokes_nothing.
  - unfold send_clear_message_to_twilio, await_send_text.
    repeat break_match; split_pairs; reflexivity.
Qed.

(** The audio coroutine logs that the audio was sent exactly when a frame
    went out on the wire. *)
Theorem audio_sent_logged_iff_sent (self : TwilioAudioInterface)
    (ws : WebSocket) (audio : bytes) :
  In (INFO, AudioSent) (logged (fst (send_audio_to_twilio self ws audio)))
  <-> wire (fst (send_audio_to_twilio self ws audio)) <> [].
Proof.
  unfold send_audio_to_twilio, send_audio_try, send_audio_except,
    await_send_text.
  repeat break_match; split_pairs; cbn; split; intros H;
    try discriminate; try congruence; auto;
    repeat match goal with
           | H : _ \/ _ |- _ => destruct H
           | H : (_, _) = (_, _) |- _ => discriminate H
           | H : False |- _ => destruct H
           end.
Qed.

(** A send of audio that raises is never silent and never stops the
    coroutine: after the three calls of the logger for the preparation,
    of which the level of the module lets the one at INFO level through,
    the coroutine logs one record at ERROR level, reports no success, and
    returns. *)
Theorem audio_send_failure_logged_once (self : TwilioAudioInterface)
    (ws : WebSocket) (audio : bytes) (e : exn) :
  truthy (stream_sid self) = true ->
  connected ws = true ->
  send_text ws (Json.dumps (envelope_of (stream_sid self) (SendAudio audio)))
    = Fails e ->
  snd (send_audio_to_twilio self ws audio) = Returned
  /\ wire (fst (send_audio_to_twilio self ws audio)) = []
  /\ exists m,
       logged (fst (send_audio_to_twilio self ws audio)) =
       [(INFO, PreparingToSend (stream_sid self));
        (DEBUG, PayloadSize (List.length audio));
        (DEBUG, Base64Size (String.length (b64encode audio)));
        (ERROR, m)]
       /\ records (fst (send_audio_to_twilio self ws audio)) =
          [(INFO, PreparingToSend (stream_sid self)); (ERROR, m)].
Proof.
  intros Hsid Hc Hs.
  unfold send_audio_to_twilio, send_audio_try, await_send_text,
    send_audio_except.
  cbn [envelope_of] in Hs. rewrite Hsid, Hc, Hs.
  destruct (isinstance e WebSocketDisconnect), (isinstance e RuntimeError);
    cbn; repeat split; eexists; split; reflexivity.
Qed.

Lemma audio_send_failure_logged_once_witness :
  snd (send_audio_to_twilio
         {| input_callback := None; stream_sid := JStr "CA123" |}
         {| application_state := CONNECTED;
            send_text := fun _ => Fails OSError |} [x01; x02]) = Returned.
Proof.
  apply (audio_send_failure_logged_once
           {| input_callback := None; stream_sid := JStr "CA123" |}
           {| application_state := CONNECTED;
              send_text := fun _ => Fails OSError |} [x01; x02] OSError);
    reflexivity.
Defined.

(** What the handler prints, invokes and raises does not depend on the
    stream id: inbound audio reaches the registered consumer before the
    start envelope and after it alike. What a coroutine sends and logs
    does not depend on the registered consumer. *)
Theorem directions_are_independent (self1 self2 : TwilioAudioInterface)
    (data : json) (ws : WebSocket) (t : task) :
  (input_callback self1 = input_callback self2 ->
   snd (fst (handle_twilio_message self1 data)) =
   snd (fst (handle_twilio_message self2 data))
   /\ snd (handle_twilio_message self1 data) =
      snd (handle_twilio_message self2 data))
  /\ (stream_sid self1 = stream_sid self2 ->
      run_task self1 ws t = run_task self2 ws t).
Proof.
  split.
  - intros Hcb. unfold handle_twilio_message. rewrite Hcb.
    repeat break_match; split_pairs; cbn; split; congruence.
  - intros Hsid. destruct t; cbn;
      unfold send_audio_to_twilio, send_clear_message_to_twilio,
        send_audio_try;
      now rewrite Hsid.
Qed.

Lemma directions_are_independent_witness :
  snd (fst (handle_twilio_message
              {| input_callback := Some (consumer 7); stream_sid := JNull |}
              (media_envelope "AQI="))) =
  snd (fst (handle_twilio_message
              {| input_callback := Some (consumer 7); stream_sid := JStr "CA123" |}
              (media_envelope "AQI=")))
  /\ run_task {| input_callback := None; stream_sid := JStr "CA123" |}
       connected_ws SendClear =
     run_task {| input_callback := Some (consumer 7); stream_sid := JStr "CA123" |}
       connected_ws SendClear.
Proof.
  split.
  - apply (directions_are_independent
             {| input_callback := Some (consumer 7); stream_sid := JNull |}
             {| input_callback := Some (consumer 7); stream_sid := JStr "CA123" |}
             (media_envelope "AQI=") connected_ws SendClear).
    reflexivity.
  - apply (directions_are_independent
             {| input_callback := None; stream_sid := JStr "CA123" |}
             {| input_callback := Some (consumer 7); stream_sid := JStr "CA123" |}
             (media_envelope "AQI=") connected_ws SendClear).
    reflexivity.
Defined.

(** Every invocation of the consumer comes from a media envelope: one
    envelope leads to at most one invocation, of the consumer registered
    at that moment, with the bytes the payload of the envelope decodes to,
    and then the handler ends as that call ends: it returns when the
    consumer returns and raises what the consumer raises. *)
Theorem invocation_comes_from_media (self : TwilioAudioInterface)
    (data : json) :
  invocations (snd (fst (handle_twilio_message self data))) = []
  \/ exists cb p audio,
       input_callback self = Some cb
       /\ is_event "media" data = true
       /\ getitem2 data "media" "payload" = Ok p
       /\ b64decode p = Ok audio
       /\ invocations (snd (fst (handle_twilio_message self data))) =
          [(cb, audio)]
       /\ snd (handle_twilio_message self data) =
          match raises cb audio with
          | Some e => Raised e
          | None => Returned
          end.
Proof.
  unfold is_event, handle_twilio_message.
  destruct (get data "event") as [v|]; [|now left].
  destruct (eq_str v "start"); [left; now break_match|].
  destruct (eq_str v "media"); [|now left].
  destruct (input_callback self) as [cb|]; [|now left].
  unfold handle_media.
  destruct (getitem2 data "media" "payload") as [p|]; [|now left].
  cbn [bind].
  destruct (len p); [|now left].
  destruct (b64decode p) as [audio|] eqn:Hdec; [|now left].
  right. exists cb, p, audio. repeat split; auto.
Qed.

(** The handler raises [AttributeError] exactly when the envelope is not a
    JSON object, or when the consumer it invokes raises it. *)
Theorem attribute_error_sources (self : TwilioAudioInterface)
    (data : json) :
  snd (handle_twilio_message self data) = Raised AttributeError
  <-> ((forall kv, data <> JObj kv)
       \/ exists cb p audio,
            input_callback self = Some cb
            /\ is_event "media" data = true
            /\ getitem2 data "media" "payload" = Ok p
            /\ b64decode p = Ok audio
            /\ raises cb audio = Some AttributeError).
Proof.
  split.
  - intros H.
    destruct data as [| | | | |kv];
      try (left; intros kv; discriminate).
    right. unfold handle_twilio_message in H. unfold is_event.
    destruct (get (JObj kv) "event") as [v|e0] eqn:Hget;
      [|cbn in Hget; destruct (lookup "event" kv); discriminate].
    destruct (eq_str v "start") eqn:Hstart.
    + destruct (getitem2 (JObj kv) "start" "streamSid") eqn:Hsid;
        cbn in H; [discriminate|].
      inversion H; subst.
      destruct (getitem2_raises _ _ _ _ Hsid); discriminate.
    + destruct (eq_str v "media") eqn:Hmedia;
        [|destruct (input_callback self); discriminate].
      destruct (input_callback self) as [cb|]; [|discriminate].
      pose proof (handle_media_raises cb (JObj kv) AttributeError) as He.
      destruct (handle_media cb (JObj kv)) as [tr o]. cbn in H, He.
      destruct (He H) as [(_ & [|[|[|]]])|(p & audio & Hp & Hdec & _ & Hr)];
        try discriminate.
      exists cb, p, audio. auto.
  - intros [Hno|(cb & p & audio & Hcb & Hev & Hp & Hdec & Hr)].
    + destruct data; try reflexivity. now destruct (Hno kv).
    + unfold is_event in Hev. unfold handle_twilio_message, handle_media.
      destruct (get data "event") as [v|]; [|discriminate].
      assert (Hstart : eq_str v "start" = false).
      { destruct v; try reflexivity. cbn in *. apply String.eqb_eq in Hev.
        now subst. }
      rewrite Hstart, Hev, Hcb, Hp. cbn [bind].
      assert (Hlen : exists n, len p = Ok n).
      { destruct p; try discriminate. now eexists. }
      destruct Hlen as [n Hlen]. rewrite Hlen, Hdec. cbn.
      unfold call_outcome. now rewrite Hr.
Qed.

Lemma attribute_error_sources_witness :
  snd (handle_twilio_message __init__ (JArr [JStr "start"])) =
    Raised AttributeError
  /\ snd (handle_twilio_message
            {| input_callback := Some (failing_consumer 7 AttributeError);
               stream_sid := JNull |}
            (media_envelope "AQI=")) = Raised AttributeError.
Proof.
  split.
  - apply (attribute_error_sources __init__ (JArr [JStr "start"])).
    left. intros kv. discriminate.
  - apply (attribute_error_sources
             {| input_callback := Some (failing_consumer 7 AttributeError);
                stream_sid := JNull |}
             (media_envelope "AQI=")).
    right. exists (failing_consumer 7 AttributeError), (JStr "AQI="),
      [x01; x02].
    repeat split.
Defined.

End Session.

(* ================================================================== *)
(** ** More on the loop *)

Section Scheduling.

Open Scope list_scope.

Lemma run_app (w : world) (acts1 acts2 : list action) :
  run w (acts1 ++ acts2) = run (run w acts1) acts2.
Proof. apply fold_left_app. Qed.

(** A series of calls of [output] and [interrupt] leaves their coroutines
    at the end of the queue, in the order of the calls. *)
Lemma run_calls (calls : list task) :
  forall w,
    run w (map call_of calls) =
    {| adapter := adapter w; ready := ready w ++ calls; trace := trace w;
       futures := futures w; escaped := escaped w |}.
Proof.
  induction calls as [|t calls IH]; intros w.
  - cbn. rewrite app_nil_r. now destruct w.
  - change (run w (map call_of (t :: calls)))
      with (run (step w (call_of t)) (map call_of calls)).
    rewrite IH. destruct t; cbn; now rewrite <- app_assoc.
Qed.

(** Running as many coroutines as the queue holds empties it, in order,
    each against the same adapter. *)
Lemma run_drain (ws : WebSocket) (q : list task) :
  forall w,
    ready w = q ->
    adapter (run w (repeat (RunTask ws) (List.length q))) = adapter w
    /\ ready (run w (repeat (RunTask ws) (List.length q))) = []
    /\ trace (run w (repeat (RunTask ws) (List.length q))) =
       trace w ++ List.concat (map (fun t => fst (run_task (adapter w) ws t)) q).
Proof.
  induction q as [|t q IH]; intros w Hq.
  - cbn. now rewrite app_nil_r.
  - change (run w (repeat (RunTask ws) (List.length (t :: q))))
      with (run (step w (RunTask ws)) (repeat (RunTask ws) (List.length q))).
    assert (Hstep : step w (RunTask ws) =
      {| adapter := adapter w; ready := q;
         trace := trace w ++ fst (run_task (adapter w) ws t);
         futures := futures w ++ [snd (run_task (adapter w) ws t)];
         escaped := escaped w |}).
    { cbn. now rewrite Hq. }
    destruct (IH (step w (RunTask ws))) as (Ha & Hr & Ht);
      [now rewrite Hstep|].
    rewrite Ha, Hr, Ht, Hstep. cbn. now rewrite <- app_assoc.
Qed.

(** [send_text] is called in the order of the calls of [output] and
    [interrupt]: with a stream id and a connected transport, each call
    leads to one call of [send_text], with its own envelope, and an
    [interrupt] does not take queued audio out of the queue. *)
Theorem send_order_is_call_order (w : world) (ws : WebSocket)
    (calls : list task) :
  ready w = [] ->
  truthy (stream_sid (adapter w)) = true ->
  connected ws = true ->
  send_attempts
    (trace (run w (map call_of calls ++
                   repeat (RunTask ws) (List.length calls)))) =
  send_attempts (trace w) ++
  map (fun t => Json.dumps (envelope_of (stream_sid (adapter w)) t)) calls.
Proof.
  intros Hready Hsid Hc. rewrite run_app, run_calls, Hready. cbn [app].
  destruct (run_drain ws calls
              {| adapter := adapter w; ready := calls; trace := trace w;
                 futures := futures w; escaped := escaped w |} eq_refl)
    as (_ & _ & Ht).
  rewrite Ht. cbn [adapter trace]. rewrite send_attempts_app. f_equal.
  clear Ht. induction calls as [|t calls IH]; [reflexivity|].
  cbn [map List.concat]. rewrite send_attempts_app, IH.
  now rewrite (run_task_attempt (adapter w) ws t Hsid Hc).
Qed.

Lemma send_order_is_call_order_witness :
  send_attempts
    (trace (run (step init (Receive (start_envelope "CA123")))
              [CallOutput [x01]; CallInterrupt; CallOutput [x02];
               RunTask connected_ws; RunTask connected_ws;
               RunTask connected_ws])) =
  [Json.dumps (media_frame "CA123" "AQ==");
   Json.dumps (clear_frame "CA123");
   Json.dumps (media_frame "CA123" "Ag==")].
Proof.
  apply (send_order_is_call_order
           (step init (Receive (start_envelope "CA123"))) connected_ws
           [SendAudio [x01]; SendClear; SendAudio [x02]]); reflexivity.
Defined.



(** A start envelope sets the stream id to its streamSid, whatever the
    stream id was before and whatever JSON value the streamSid is; when
    that value counts as true, an [output] that follows sends the audio
    under it, on a connected transport. The registered consumer stays. *)
Theorem start_then_output_sends (w : world) (data sid : json)
    (audio : bytes) (ws : WebSocket) :
  ready w = [] ->
  is_event "start" data = true ->
  getitem2 data "start" "streamSid" = Ok sid ->
  truthy sid = true ->
  connected ws = true ->
  send_text ws (Json.dumps (envelope_of sid (SendAudio audio))) = Sent ->
  wire (trace (run w [Receive data; CallOutput audio; RunTask ws])) =
    wire (trace w) ++ [Json.dumps (envelope_of sid (SendAudio audio))]
  /\ adapter (run w [Receive data; CallOutput audio; RunTask ws]) =
     {| input_callback := input_callback (adapter w); stream_sid := sid |}.
Proof.
  intros Hready Hev Hsid Htrue Hc Hs.
  assert (Hh : handle_twilio_message (adapter w) data =
               ({| input_callback := input_callback (adapter w);
                   stream_sid := sid |}, [], Returned)).
  { unfold is_event in Hev. unfold handle_twilio_message.
    destruct (get data "event"); [|discriminate]. now rewrite Hev, Hsid. }
  unfold run. cbn. rewrite Hh, Hready. cbn.
  rewrite (send_audio_connected
             {| input_callback := input_callback (adapter w);
                stream_sid := sid |} ws audio Htrue Hc Hs).
  cbn. rewrite app_nil_r, wire_app. now split.
Qed.

Lemma start_then_output_sends_witness :
  wire (trace (run (step init (Receive (start_envelope "CA123")))
                 [Receive (JObj [("event", JStr "start");
                                 ("start", JObj [("streamSid", JInt 5)])]);
                  CallOutput [x01; x02]; RunTask connected_ws])) =
  [json_text "{'event': 'media', 'streamSid': 5, 'media': {'payload': 'AQI='}}"].
Proof.
  apply (start_then_output_sends
           (step init (Receive (start_envelope "CA123")))
           (JObj [("event", JStr "start");
                  ("start", JObj [("streamSid", JInt 5)])])
           (JInt 5) [x01; x02] connected_ws); reflexivity.
Defined.

End Scheduling.
